(** * twitter-api.py: the OAuth 1.0a request signer and the command dispatcher

    A shallow embedding of [agent-tools/scripts/twitter-api.py].

    Representation choices.
    - A Python [str] is represented by the [string] of its UTF-8 bytes.
      Python compares [str] values code point by code point, and UTF-8
      preserves that order, so the bytewise order [String.leb] used below is
      the order [sorted] uses.  [urllib.parse.quote] works on the UTF-8
      bytes of its argument, which is what [quote] below receives.
    - A Python [dict] with string keys is an association list in insertion
      order; dictionaries that the program shares by reference live in a
      heap ([gmap loc dict]).
    - The clock, the nonce source and the HTTP peer are the environment
      [Env] of one invocation. *)

From Stdlib Require Import ZArith Ascii String List Bool Lia.
From Stdlib Require Import DecimalString DecimalPos DecimalZ.
From stdpp Require Import base option list sorting gmap.

Import ListNotations.
Local Open Scope string_scope.
#[local] Set Warnings "-register-all".
Local Open Scope Z_scope.

(** ** Bytes and text *)

Module Bytes.

(** [s.encode()]: the bytes of a string, as integers in [0, 256). *)
Definition encode (s : string) : list Z :=
  map (fun a => Z.of_N (N_of_ascii a)) (list_ascii_of_string s).

(** [bs.decode()] for byte lists made of values in [0, 256). *)
Definition decode (bs : list Z) : string :=
  string_of_list_ascii (map (fun b => ascii_of_N (Z.to_N b)) bs).

(** Big-endian bytes of the [n]-byte integer [x]. *)
Fixpoint be_bytes (n : nat) (x : Z) : list Z :=
  match n with
  | O => []
  | S n' => Z.land (Z.shiftr x (8 * Z.of_nat n')) 255 :: be_bytes n' x
  end.

(** The big-endian integer of a byte list. *)
Definition be_word (bs : list Z) : Z :=
  fold_left (fun acc b => Z.lor (Z.shiftl acc 8) b) bs 0.

(** Cut a list into consecutive chunks of [n] elements; [fuel] bounds the
    number of chunks. *)
Fixpoint chunks {A} (fuel : nat) (n : nat) (l : list A) : list (list A) :=
  match fuel with
  | O => []
  | S fuel' =>
      match l with
      | [] => []
      | _ => firstn n l :: chunks fuel' n (skipn n l)
      end
  end.

Definition chunked {A} (n : nat) (l : list A) : list (list A) :=
  chunks (S (length l)) n l.

End Bytes.

(** ** SHA-1 (FIPS 180-4), as [hashlib.sha1] computes it *)

Module SHA1.

Definition mask32 : Z := 4294967295.
Definition w32 (x : Z) : Z := Z.land x mask32.
Definition add32 (x y : Z) : Z := w32 (x + y).
Definition rotl (n x : Z) : Z :=
  w32 (Z.lor (Z.shiftl x n) (Z.shiftr x (32 - n))).
Definition not32 (x : Z) : Z := Z.lxor x mask32.

(** Message padding: a [0x80] byte, zeros up to 56 mod 64, then the bit
    length on eight big-endian bytes. *)
Definition pad (msg : list Z) : list Z :=
  let len := Z.of_nat (length msg) in
  let zeros := Z.to_nat ((55 - len) mod 64) in
  msg ++ [128] ++ repeat 0 zeros ++ Bytes.be_bytes 8 (8 * len).

(** The message schedule: sixteen words of the block, extended to eighty.
    The list is kept newest first, so that [w(t-3)], [w(t-8)], [w(t-14)]
    and [w(t-16)] sit at positions 2, 7, 13 and 15. *)
Fixpoint extend (n : nat) (rev_w : list Z) : list Z :=
  match n with
  | O => rev_w
  | S n' =>
      let x := Z.lxor (Z.lxor (nth 2 rev_w 0) (nth 7 rev_w 0))
                      (Z.lxor (nth 13 rev_w 0) (nth 15 rev_w 0)) in
      extend n' (rotl 1 x :: rev_w)
  end.

Definition schedule (block : list Z) : list Z :=
  rev (extend 64 (rev (map Bytes.be_word (Bytes.chunked 4 block)))).

Record state := State { ha : Z; hb : Z; hc : Z; hd : Z; he : Z }.

Definition init : state :=
  State 1732584193 4023233417 2562383102 271733878 3285377520.

Definition round_f (t : nat) (b c d : Z) : Z :=
  if (t <? 20)%nat then Z.lor (Z.land b c) (Z.land (not32 b) d)
  else if (t <? 40)%nat then Z.lxor (Z.lxor b c) d
  else if (t <? 60)%nat then
    Z.lor (Z.lor (Z.land b c) (Z.land b d)) (Z.land c d)
  else Z.lxor (Z.lxor b c) d.

Definition round_k (t : nat) : Z :=
  if (t <? 20)%nat then 1518500249
  else if (t <? 40)%nat then 1859775393
  else if (t <? 60)%nat then 2400959708
  else 3395469782.

Definition round (st : state) (tw : nat * Z) : state :=
  let '(t, w) := tw in
  let '(State a b c d e) := st in
  let tmp :=
    add32 (add32 (add32 (add32 (rotl 5 a) (round_f t b c d)) e) (round_k t)) w in
  State tmp a (rotl 30 b) c d.

Definition compress (h : state) (block : list Z) : state :=
  let w := schedule block in
  let r := fold_left round (combine (seq 0 80) w) h in
  State (add32 (ha h) (ha r)) (add32 (hb h) (hb r)) (add32 (hc h) (hc r))
        (add32 (hd h) (hd r)) (add32 (he h) (he r)).

Definition digest (msg : list Z) : list Z :=
  let h := fold_left compress (Bytes.chunked 64 (pad msg)) init in
  flat_map (Bytes.be_bytes 4) [ha h; hb h; hc h; hd h; he h].

End SHA1.

(** ** HMAC (RFC 2104) over SHA-1, as [hmac.new(key, msg, hashlib.sha1)] *)

Module HMAC.

Definition block_size : nat := 64.

(** Keys longer than a block are hashed first; the key is then padded with
    zero bytes to one block. *)
Definition block_key (key : list Z) : list Z :=
  let k := if (block_size <? length key)%nat then SHA1.digest key else key in
  k ++ repeat 0 (block_size - length k).

Definition digest (key msg : list Z) : list Z :=
  let k := block_key key in
  let ipad := map (fun b => Z.lxor b 54) k in
  let opad := map (fun b => Z.lxor b 92) k in
  SHA1.digest (opad ++ SHA1.digest (ipad ++ msg)).

End HMAC.

(** ** Base64 (RFC 4648, standard alphabet, padded), as [base64.b64encode] *)

Module Base64.

Definition alphabet : string :=
  "ABCDEFGHIJKLMNOPQRSTUVWXYZabcdefghijklmnopqrstuvwxyz0123456789+/".

Definition digit (i : Z) : string :=
  match get (Z.to_nat i) alphabet with
  | Some c => String c ""
  | None => ""
  end.

Definition encode_group (g : list Z) : string :=
  match g with
  | [a; b; c] =>
      digit (Z.shiftr a 2)
      ++ digit (Z.lor (Z.shiftl (Z.land a 3) 4) (Z.shiftr b 4))
      ++ digit (Z.lor (Z.shiftl (Z.land b 15) 2) (Z.shiftr c 6))
      ++ digit (Z.land c 63)
  | [a; b] =>
      digit (Z.shiftr a 2)
      ++ digit (Z.lor (Z.shiftl (Z.land a 3) 4) (Z.shiftr b 4))
      ++ digit (Z.shiftl (Z.land b 15) 2)
      ++ "="
  | [a] =>
      digit (Z.shiftr a 2) ++ digit (Z.shiftl (Z.land a 3) 4) ++ "=="
  | _ => ""
  end.

Definition b64encode (bs : list Z) : string :=
  String.concat "" (map encode_group (Bytes.chunked 3 bs)).

End Base64.

(** ** Text helpers *)

(** The double-quote character. *)
Definition dq : string := String "034"%char "".

(** [sep.join(parts)]. *)
Definition join (sep : string) (parts : list string) : string :=
  String.concat sep parts.

(** [str(n)] for an [int]. *)
Definition str_of_int (n : Z) : string := NilZero.string_of_int (Z.to_int n).

(** [needle in haystack] for two [str] values. *)
Definition contains (needle haystack : string) : bool :=
  match index 0 needle haystack with
  | Some _ => true
  | None => false
  end.

(** ** [urllib.parse.quote(s, safe='')] *)

(** The bytes [quote] never escapes: ASCII letters, digits and [_.-~]. *)
Definition unreserved (a : ascii) : bool :=
  let n := N_of_ascii a in
  ((65 <=? n) && (n <=? 90) || (97 <=? n) && (n <=? 122)
   || (48 <=? n) && (n <=? 57)
   || (n =? 95) || (n =? 46) || (n =? 45) || (n =? 126))%N.

Definition hex_upper (i : N) : ascii :=
  match get (N.to_nat i) "0123456789ABCDEF" with
  | Some c => c
  | None => "0"%char
  end.

(** Every byte outside the unreserved set becomes [%XX], upper-case hex. *)
Fixpoint quote (s : string) : string :=
  match s with
  | EmptyString => EmptyString
  | String a s' =>
      if unreserved a then String a (quote s')
      else
        let n := N_of_ascii a in
        String "%" (String (hex_upper (n / 16))
                           (String (hex_upper (n mod 16)) (quote s')))
  end.

(** ** Dictionaries with string keys

    The values are strings too, as in every dict the script builds, so
    that [str(v)] is [v]. *)

Abbreviation dict := (list (string * string)).

Definition dict_get (k : string) (d : dict) : option string :=
  snd <$> find (fun kv => String.eqb (fst kv) k) d.

(** [d[k] = v]: an existing key keeps its position, a new key goes last. *)
Fixpoint dict_set (k v : string) (d : dict) : dict :=
  match d with
  | [] => [(k, v)]
  | (k', v') :: d' =>
      if String.eqb k' k then (k, v) :: d' else (k', v') :: dict_set k v d'
  end.

(** [{**a, **b}]: a copy of [a] updated with the entries of [b] in order. *)
Definition dict_merge (a b : dict) : dict :=
  fold_left (fun acc kv => dict_set (fst kv) (snd kv) acc) b a.

(** ** [sorted] on lists of [(str, str)] tuples *)

(** Tuple comparison [a < b]: the first components decide unless they are
    equal. *)
Definition item_ltb (a b : string * string) : bool :=
  if String.eqb (fst a) (fst b) then String.ltb (snd a) (snd b)
  else String.ltb (fst a) (fst b).

(** [sorted] is a stable merge sort that only asks [b < a]: [a] stays in
    front of [b] unless [b < a]. *)
Definition item_le (a b : string * string) : Prop := item_ltb b a = false.

#[global] Instance item_le_dec : RelDecision item_le :=
  fun a b => decide (item_ltb b a = false).

Definition sorted (items : list (string * string)) : list (string * string) :=
  merge_sort item_le items.

(** ** The signer's pure steps (lines 32 to 37 of the script) *)

(** The credentials compiled into the script. *)
Definition AK : string := "qx7UevJ9Ik8VcGTU9wHlgynna".
Definition AKS : string := "Sr6poxYJESoYctndEufjjtjXgXUGz1urinA8K8ADw0yLtcoDt6".
Definition AT : string := "2013700835654672388-HUnMlIBkv1KiSKSSjFU3m68gffRHl1".
Definition ATS : string := "pYBAUzVjP4wWesaymDq4EQ3ddlcHqq7LRGoXTeZHJOJVP".

(** Line 32: [ps]. *)
Definition param_string (all_p : dict) : string :=
  join "&" (map (fun kv => quote (fst kv) ++ "=" ++ quote (snd kv))
                (sorted all_p)).

(** Line 33: [bs]. *)
Definition base_string (method url ps : string) : string :=
  method ++ "&" ++ quote url ++ "&" ++ quote ps.

(** Line 34: [sk]. *)
Definition signing_key : string := quote AKS ++ "&" ++ quote ATS.

(** Line 35: [sig]. *)
Definition sign (sk bs : string) : string :=
  Base64.b64encode (HMAC.digest (Bytes.encode sk) (Bytes.encode bs)).

(** Line 37: the header built from the items of [oauth]. *)
Definition header (oauth : dict) : string :=
  "OAuth " ++ join ", " (map (fun kv => fst kv ++ "=" ++ dq ++ quote (snd kv) ++ dq)
                             oauth).

(** Lines 26 to 30: the six metadata fields, in insertion order. *)
Definition oauth_meta (ts nonce : string) : dict :=
  [ ("oauth_consumer_key", AK); ("oauth_nonce", nonce);
    ("oauth_signature_method", "HMAC-SHA1"); ("oauth_timestamp", ts);
    ("oauth_token", AT); ("oauth_version", "1.0") ].

(** ** Values decoded from JSON, and the Python operations used on them *)

(** What [json.loads] returns.  A [float] is kept as its lexeme together
    with whether its value is zero, the one property the script inspects. *)
Inductive json :=
| JNull
| JBool (b : bool)
| JInt (z : Z)
| JFloat (lexeme : string) (is_zero : bool)
| JStr (s : string)
| JList (l : list json)
| JDict (d : list (string * json)).

Inductive exn :=
| IndexError
| JSONDecodeError
| UnicodeDecodeError
| UnicodeEncodeError
| InvalidURL
| ValueError
| TypeError
| KeyError
| AttributeError
| SystemExit (code : Z).

(** [bool(j)]. *)
Definition truthy (j : json) : bool :=
  match j with
  | JNull => false
  | JBool b => b
  | JInt z => negb (z =? 0)
  | JFloat _ is_zero => negb is_zero
  | JStr s => negb (String.eqb s "")
  | JList l => match l with [] => false | _ => true end
  | JDict d => match d with [] => false | _ => true end
  end.

Definition jdict_get (k : string) (d : list (string * json)) : option json :=
  snd <$> find (fun kv => String.eqb (fst kv) k) d.

(** [k in j] for a string [k]: a key test on a dict, an element test on a
    list, a substring test on a str, and a [TypeError] on anything else. *)
Definition py_in (k : string) (j : json) : bool + exn :=
  match j with
  | JDict d => inl (bool_decide (is_Some (jdict_get k d)))
  | JList l =>
      inl (existsb (fun x => match x with JStr s => String.eqb s k | _ => false end) l)
  | JStr s => inl (contains k s)
  | _ => inr TypeError
  end.

(** [j[k]] for a string [k]. *)
Definition py_getitem (j : json) (k : string) : json + exn :=
  match j with
  | JDict d => match jdict_get k d with Some v => inl v | None => inr KeyError end
  | _ => inr TypeError
  end.

(** [j.get(k, default)]: only a dict has the method. *)
Definition py_get (j : json) (k : string) (default : json) : json + exn :=
  match j with
  | JDict d => inl (match jdict_get k d with Some v => v | None => default end)
  | _ => inr AttributeError
  end.

(** ** The world of one invocation *)

Abbreviation loc := positive.

(** A printed line: the literal pieces of an f-string and the values
    formatted into it. *)
Inductive fragment :=
| Lit (s : string)
| Fmt (j : json).

Definition line := list fragment.

(** The [body] argument of [conn.request]. *)
Inductive wire_body :=
| NoBody
| Dumped (j : json)          (* json.dumps(j) *)
| Text (s : string)
| Object (j : json).         (* a Python object handed over as it is *)

Record Request := {
  req_method : string;
  req_path : string;
  req_host : string;
  req_body : wire_body;
  req_headers : dict
}.

(** The body of a response, with what [json.loads(r.read().decode())]
    makes of it: a value; no value for a text that is not JSON; and no text
    at all for bytes that are not UTF-8. *)
Inductive payload :=
| Json (j : json)
| NotJson (raw : string)
| NotUtf8 (raw : string).

Record Response := { resp_status : Z; resp_body : payload }.

(** What the invocation reads from outside: [int(time.time())], the result
    of [secrets.token_hex(16)], and the server's answer. *)
Record Env := { clock : Z; token_hex : string; response : Response }.

Record World := {
  w_heap : gmap loc dict;
  w_stdout : list line;
  w_sent : list Request
}.

(** State and exceptions: a raised exception keeps the state reached. *)
Definition M (A : Type) : Type := World -> (A + exn) * World.

Definition ret {A} (a : A) : M A := fun w => (inl a, w).
Definition raise {A} (e : exn) : M A := fun w => (inr e, w).
Definition bind {A B} (m : M A) (k : A -> M B) : M B :=
  fun w => match m w with
           | (inl a, w') => k a w'
           | (inr e, w') => (inr e, w')
           end.
Definition lift {A} (r : A + exn) : M A :=
  match r with inl a => ret a | inr e => raise e end.

Notation "x <- c ;; k" := (bind c (fun x => k))
  (at level 100, c at next level, right associativity).
Notation "c ;;; k" := (bind c (fun _ => k))
  (at level 100, right associativity).

Definition print (l : line) : M unit :=
  fun w => (inl tt, {| w_heap := w_heap w; w_stdout := w_stdout w ++ [l];
                       w_sent := w_sent w |}).

(** A new dict object. *)
Definition new_dict (d : dict) : M loc :=
  fun w => let l := fresh (dom (w_heap w)) in
           (inl l, {| w_heap := <[l := d]> (w_heap w); w_stdout := w_stdout w;
                      w_sent := w_sent w |}).

(** The contents of a dict object (a reference always points into the
    heap; outside it the read gives the empty dict). *)
Definition read_dict (l : loc) : M dict :=
  fun w => (inl (default [] (w_heap w !! l)), w).

(** [l[k] = v]. *)
Definition setitem (l : loc) (k v : string) : M unit :=
  fun w => (inl tt, {| w_heap := <[l := dict_set k v (default [] (w_heap w !! l))]> (w_heap w);
                       w_stdout := w_stdout w; w_sent := w_sent w |}).

(** [extra_params or {}]: [None] and an empty dict give a new empty dict,
    any other dict is used itself. *)
Definition or_empty (extra_params : option loc) : M loc :=
  match extra_params with
  | None => new_dict []
  | Some l => d <- read_dict l ;;
              match d with [] => new_dict [] | _ => ret l end
  end.

(** ** The request signer *)

Definition oauth_sign (e : Env) (method url : string) (extra_params : option loc)
  : M string :=
  let ts := str_of_int (clock e) in
  let nonce := token_hex e in
  oauth <- new_dict (oauth_meta ts nonce) ;;
  extra <- or_empty extra_params ;;
  a <- read_dict oauth ;;
  b <- read_dict extra ;;
  all_p <- new_dict (dict_merge a b) ;;
  items <- read_dict all_p ;;
  let ps := param_string items in
  let bs := base_string method url ps in
  let sk := signing_key in
  let sig := sign sk bs in
  setitem oauth "oauth_signature" sig ;;;
  fields <- read_dict oauth ;;
  ret (header fields).

(** ** The command dispatcher *)

(** [json.loads(r.read().decode())]: [decode] raises on bytes that are not
    UTF-8, [json.loads] on a text that is not JSON. *)
Definition json_loads (p : payload) : M json :=
  match p with
  | Json j => ret j
  | NotJson _ => raise JSONDecodeError
  | NotUtf8 _ => raise UnicodeDecodeError
  end.

(** *** [conn.request]

    [http.client] checks the request line before it writes anything: a
    control character in the method ([\x00-\x1f]) is a [ValueError], a
    control character, a space or DEL in the path ([\x00-\x20\x7f]) is an
    [InvalidURL], and a request line that is not ASCII is a
    [UnicodeEncodeError].  Past these checks the transport is taken to
    work: the request goes out and the answer is the one in [Env]. *)

Fixpoint some_char (p : ascii -> bool) (s : string) : bool :=
  match s with
  | EmptyString => false
  | String a s' => p a || some_char p s'
  end.

Definition method_control_char (a : ascii) : bool := (N_of_ascii a <=? 31)%N.

Definition path_disallowed_char (a : ascii) : bool :=
  ((N_of_ascii a <=? 32) || (N_of_ascii a =? 127))%N.

Definition non_ascii_char (a : ascii) : bool := (128 <=? N_of_ascii a)%N.

(** The exception [conn.request(method, path, ...)] raises before writing,
    if any. *)
Definition wire_error (method path : string) : option exn :=
  if some_char method_control_char method then Some ValueError
  else if some_char path_disallowed_char path then Some InvalidURL
  else if some_char non_ascii_char method || some_char non_ascii_char path
       then Some UnicodeEncodeError
  else None.

(** [conn.request(...)]: it raises, with nothing written, or the request
    leaves on the wire. *)
Definition conn_request (r : Request) : M unit :=
  fun w =>
    match wire_error (req_method r) (req_path r) with
    | Some x => (inr x, w)
    | None => (inl tt, {| w_heap := w_heap w; w_stdout := w_stdout w;
                          w_sent := w_sent w ++ [r] |})
    end.

(** Line 43: [json.dumps(body) if body and content_type ==
    "application/json" else body]. *)
Definition request_body (body : option json) (content_type : string) : wire_body :=
  match body with
  | None => NoBody
  | Some j =>
      if truthy j && String.eqb content_type "application/json"
      then Dumped j else Object j
  end.

Definition api_call (e : Env) (method path : string) (body : option json)
    (content_type host : string) (form_params : option loc) : M (Z * json) :=
  auth <- oauth_sign e method ("https://" ++ host ++ path) form_params ;;
  let headers := [("Authorization", auth); ("Content-Type", content_type)] in
  let b := request_body body content_type in
  conn_request {| req_method := method; req_path := path; req_host := host;
                  req_body := b; req_headers := headers |} ;;;
  let r := response e in
  data <- json_loads (resp_body r) ;;
  ret (resp_status r, data).

(** The defaults of [api_call]'s keyword parameters. *)
Definition api_call_json (e : Env) (method path : string) (body : option json)
  : M (Z * json) :=
  api_call e method path body "application/json" "api.twitter.com" None.

Definition tweet (e : Env) (text : string) (reply_to : option string) : M unit :=
  let body :=
    match reply_to with
    | Some r =>
        if negb (String.eqb r "")
        then [("text", JStr text);
              ("reply", JDict [("in_reply_to_tweet_id", JStr r)])]
        else [("text", JStr text)]
    | None => [("text", JStr text)]
    end in
  sd <- api_call_json e "POST" "/2/tweets" (Some (JDict body)) ;;
  let data := snd sd in
  has <- lift (py_in "data" data) ;;
  if has : bool then
    d <- lift (py_getitem data "data") ;;
    tid <- lift (py_getitem d "id") ;;
    print [Lit "✅ https://x.com/AxiomBot/status/"; Fmt tid]
  else print [Lit "❌ "; Fmt data].

(** The shape shared by [like], [retweet] and [delete]:
    [print(ok if data.get("data", {}).get(flag) else f"❌ {data}")]. *)
Definition report_flag (ok flag : string) (data : json) : M unit :=
  d <- lift (py_get data "data" (JDict [])) ;;
  f <- lift (py_get d flag JNull) ;;
  print (if truthy f then [Lit ok] else [Lit "❌ "; Fmt data]).

Definition like (e : Env) (tweet_id : string) : M unit :=
  sd <- api_call_json e "POST" "/2/users/2013700835654672388/likes"
          (Some (JDict [("tweet_id", JStr tweet_id)])) ;;
  report_flag "✅ Liked" "liked" (snd sd).

Definition retweet (e : Env) (tweet_id : string) : M unit :=
  sd <- api_call_json e "POST" "/2/users/2013700835654672388/retweets"
          (Some (JDict [("tweet_id", JStr tweet_id)])) ;;
  report_flag "✅ Retweeted" "retweeted" (snd sd).

Definition delete (e : Env) (tweet_id : string) : M unit :=
  sd <- api_call_json e "DELETE" ("/2/tweets/" ++ tweet_id) None ;;
  report_flag "✅ Deleted" "deleted" (snd sd).

Definition bio (e : Env) (text : string) : M unit :=
  let form := quote "description" ++ "=" ++ quote text in
  params <- new_dict [("description", text)] ;;
  auth <- oauth_sign e "POST"
            "https://api.twitter.com/1.1/account/update_profile.json" (Some params) ;;
  conn_request
    {| req_method := "POST"; req_path := "/1.1/account/update_profile.json";
       req_host := "api.twitter.com"; req_body := Text form;
       req_headers := [("Authorization", auth);
                       ("Content-Type", "application/x-www-form-urlencoded")] |} ;;;
  data <- json_loads (resp_body (response e)) ;;
  shown <- lift (py_get data "description" data) ;;
  print [Lit "✅ Bio: "; Fmt shown].

Definition dm (e : Env) (recipient_id text : string) : M unit :=
  let body := [("text", JStr text); ("participant_ids", JList [JStr recipient_id])] in
  sd <- api_call_json e "POST" "/2/dm_conversations" (Some (JDict body)) ;;
  let '(status, data) := sd in
  ok <- (if status =? 201 then ret true else lift (py_in "data" data)) ;;
  if ok : bool then
    print [Lit "✅ DM sent to "; Lit recipient_id] ;;;
    has <- lift (py_in "data" data) ;;
    if has : bool then
      d <- lift (py_getitem data "data") ;;
      c <- lift (py_get d "dm_conversation_id" (JStr "unknown")) ;;
      print [Lit "   Conversation: "; Fmt c]
    else ret tt
  else if status =? 403 then
    print [Lit "❌ DM failed (403): No permission. Need elevated API access or user doesn't allow DMs."] ;;;
    print [Lit "   Details: "; Fmt data]
  else
    print [Lit "❌ DM failed ("; Lit (str_of_int status); Lit "): "; Fmt data].

Definition dm_to_conversation (e : Env) (conversation_id text : string) : M unit :=
  sd <- api_call_json e "POST"
          ("/2/dm_conversations/" ++ conversation_id ++ "/messages")
          (Some (JDict [("text", JStr text)])) ;;
  let '(status, data) := sd in
  ok <- (if status =? 201 then ret true else lift (py_in "data" data)) ;;
  if ok : bool then
    print [Lit "✅ DM sent to conversation "; Lit conversation_id]
  else
    print [Lit "❌ DM failed ("; Lit (str_of_int status); Lit "): "; Fmt data].

Definition nl : string := String "010"%char "".

(** The module docstring, [__doc__]. *)
Definition usage : string :=
  join nl
    [ "";
      "Twitter/X API helper using OAuth 1.0a";
      "Usage:";
      "  python3 twitter-api.py tweet " ++ dq ++ "Hello world" ++ dq;
      "  python3 twitter-api.py reply <tweet_id> " ++ dq ++ "Reply text" ++ dq;
      "  python3 twitter-api.py like <tweet_id>";
      "  python3 twitter-api.py retweet <tweet_id>";
      "  python3 twitter-api.py delete <tweet_id>";
      "  python3 twitter-api.py bio " ++ dq ++ "New bio text" ++ dq;
      "  python3 twitter-api.py dm <user_id> " ++ dq ++ "Message text" ++ dq;
      "  python3 twitter-api.py dm-conv <conversation_id> " ++ dq ++ "Message text" ++ dq;
      "" ].

(** [sys.argv[i]]. *)
Definition argv_at (argv : list string) (i : nat) : M string :=
  match nth_error argv i with
  | Some s => ret s
  | None => raise IndexError
  end.

(** The [if]/[elif] chain on [cmd], lines 116 to 134. *)
Definition dispatch (e : Env) (argv : list string) (cmd : string) : M unit :=
  if String.eqb cmd "tweet" then
    a <- argv_at argv 2 ;; tweet e a None
  else if String.eqb cmd "reply" then
    a <- argv_at argv 3 ;; r <- argv_at argv 2 ;; tweet e a (Some r)
  else if String.eqb cmd "like" then
    a <- argv_at argv 2 ;; like e a
  else if String.eqb cmd "retweet" then
    a <- argv_at argv 2 ;; retweet e a
  else if String.eqb cmd "delete" then
    a <- argv_at argv 2 ;; delete e a
  else if String.eqb cmd "bio" then
    a <- argv_at argv 2 ;; bio e a
  else if String.eqb cmd "dm" then
    a <- argv_at argv 2 ;; b <- argv_at argv 3 ;; dm e a b
  else if String.eqb cmd "dm-conv" then
    a <- argv_at argv 2 ;; b <- argv_at argv 3 ;; dm_to_conversation e a b
  else
    print [Lit "Unknown command: "; Lit cmd] ;;;
    print [Lit usage].

(** The body of [if __name__ == ...], lines 110 to 134. *)
Definition main (e : Env) (argv : list string) : M unit :=
  if (length argv <? 2)%nat then
    print [Lit usage] ;;; raise (SystemExit 1)
  else
    cmd <- argv_at argv 1 ;;
    dispatch e argv cmd.

(** The world a fresh process starts in. *)
Definition world0 : World := {| w_heap := ∅; w_stdout := []; w_sent := [] |}.

(** ** What the signer computes, as a function of what it reads *)

(** The value of [sig] on line 35 for the timestamp, the nonce and the
    contents of [extra_params]. *)
Definition oauth_signature (ts nonce method url : string) (extra : dict) : string :=
  sign signing_key
       (base_string method url
          (param_string (dict_merge (oauth_meta ts nonce) extra))).

(** The [oauth] dict after line 36. *)
Definition signed_fields (ts nonce method url : string) (extra : dict) : dict :=
  dict_set "oauth_signature" (oauth_signature ts nonce method url extra)
           (oauth_meta ts nonce).

(** The contents of the [extra_params] argument: nothing for [None]. *)
Definition extra_dict (extra_params : option loc) (h : gmap loc dict) : dict :=
  match extra_params with
  | None => []
  | Some l => default [] (h !! l)
  end.

(** An [extra_params] argument is [None] or a reference to a live dict. *)
Definition extra_ok (extra_params : option loc) (h : gmap loc dict) : Prop :=
  match extra_params with
  | None => True
  | Some l => is_Some (h !! l)
  end.

(** The keys of a dict. *)
Definition keys (d : dict) : list string := map fst d.

(** Two dicts that hold the same mapping, whatever the insertion order. *)
Definition same_mapping (d1 d2 : dict) : Prop :=
  NoDup (keys d1) /\ NoDup (keys d2) /\ forall k, dict_get k d1 = dict_get k d2.

(** An entry with its key and its value percent-encoded. *)
Definition encode_item (kv : string * string) : string * string :=
  (quote (fst kv), quote (snd kv)).

(** The parameter string as the specification words it: every key and
    value is percent-encoded first, and the encoded entries are sorted by
    encoded key, ties broken by encoded value. *)
Definition spec_param_string (all_p : dict) : string :=
  join "&" (map (fun kv => fst kv ++ "=" ++ snd kv)
                (sorted (map encode_item all_p))).

(** The inverse of [quote] on one escape [%XY]. *)
Definition unhex (c : ascii) : N :=
  let n := N_of_ascii c in
  (if n <? 58 then n - 48 else n - 55)%N.

(** [urllib.parse.unquote_to_bytes] on the output of [quote]. *)
Fixpoint unquote (s : string) : string :=
  match s with
  | EmptyString => EmptyString
  | String c s' =>
      if Ascii.eqb c "%" then
        match s' with
        | String x (String y rest) =>
            String (ascii_of_N (unhex x * 16 + unhex y)) (unquote rest)
        | _ => String c (unquote s')
        end
      else String c (unquote s')
  end.

(** The reference vector: the url, and the pinned clock and nonce. *)
Definition reference_url : string := "https://api.example.com/2/tweets".
Definition reference_nonce : string := "0123456789abcdef0123456789abcdef".
Definition pinned (r : Response) : Env :=
  {| clock := 1700000000; token_hex := reference_nonce; response := r |}.

(** ** Vocabulary for the dispatcher's claims *)

(** The number of positional arguments the branch of a command reads: the
    highest index into [sys.argv] it uses, minus one. *)
Definition arity (cmd : string) : option nat :=
  if String.eqb cmd "tweet" then Some 1%nat
  else if String.eqb cmd "reply" then Some 2%nat
  else if String.eqb cmd "like" then Some 1%nat
  else if String.eqb cmd "retweet" then Some 1%nat
  else if String.eqb cmd "delete" then Some 1%nat
  else if String.eqb cmd "bio" then Some 1%nat
  else if String.eqb cmd "dm" then Some 2%nat
  else if String.eqb cmd "dm-conv" then Some 2%nat
  else None.

(** The header the signer returns in environment [e] for a request with
    the given extra parameters. *)
Definition authorization (e : Env) (method url : string) (extra : dict) : string :=
  header (signed_fields (str_of_int (clock e)) (token_hex e) method url extra).

(** The request [api_call] puts on the wire when it signs with [extra]. *)
Definition api_request (e : Env) (method path : string) (body : option json)
    (content_type host : string) (extra : dict) : Request :=
  {| req_method := method; req_path := path; req_host := host;
     req_body := request_body body content_type;
     req_headers :=
       [("Authorization", authorization e method ("https://" ++ host ++ path) extra);
        ("Content-Type", content_type)] |}.

(** A computation that sends nothing. *)
Definition keeps_sent {A} (m : M A) : Prop :=
  forall w, w_sent (snd (m w)) = w_sent w.

(** A computation that never raises [SystemExit]. *)
Definition never_exits {A} (m : M A) : Prop :=
  forall w code, fst (m w) <> inr (SystemExit code).

(** The two failure reports of [dm]. *)
Definition dm_permission_denied (data : json) : list line :=
  [ [Lit "❌ DM failed (403): No permission. Need elevated API access or user doesn't allow DMs."];
    [Lit "   Details: "; Fmt data] ].

Definition dm_generic_failure (status : Z) (data : json) : list line :=
  [ [Lit "❌ DM failed ("; Lit (str_of_int status); Lit "): "; Fmt data] ].

(** Running [m] from [w] puts exactly this one request on the wire, signed
    with the extra parameters [extra]. *)
Definition sends (e : Env) (m : M unit) (w : World)
    (method host path : string) (body : wire_body) (content_type : string)
    (extra : dict) : Prop :=
  w_sent (snd (m w))
  = (w_sent w
     ++ [ {| req_method := method; req_path := path; req_host := host;
             req_body := body;
             req_headers :=
               [("Authorization",
                 authorization e method ("https://" ++ host ++ path) extra);
                ("Content-Type", content_type)] |} ])%list.

(** The text does not contain the character [c]. *)
Fixpoint free_of (c : ascii) (s : string) : bool :=
  match s with
  | EmptyString => true
  | String x s' => negb (Ascii.eqb x c) && free_of c s'
  end.

(** The text of a printed line, given how values are formatted. *)
Definition render (fmt : json -> string) (l : line) : string :=
  String.concat ""
    (map (fun f => match f with Lit s => s | Fmt j => fmt j end) l).

(** [bytes.hex()], for the test vectors. *)
Definition hex_of (bs : list Z) : string :=
  let d (i : Z) := match get (Z.to_nat i) "0123456789abcdef" with
                   | Some c => String c "" | None => "" end in
  String.concat "" (map (fun b => d (Z.shiftr b 4) ++ d (Z.land b 15)) bs).

(** ** Vocabulary for the request on the wire *)

(** What [api_call] gives back, or raises: the exception of [conn.request]
    if it refuses the request line, else the exception of the decoding if
    the body cannot be decoded, else the status and the decoded value. *)
Definition api_result (e : Env) (method path : string) : (Z * json) + exn :=
  match wire_error method path with
  | Some x => inr x
  | None =>
      match resp_body (response e) with
      | Json j => inl (resp_status (response e), j)
      | NotJson _ => inr JSONDecodeError
      | NotUtf8 _ => inr UnicodeDecodeError
      end
  end.

(** The exception of [json.loads(r.read().decode())] on a body that cannot
    be decoded: [UnicodeDecodeError] from [decode()], [JSONDecodeError]
    from [json.loads]. *)
Definition decode_error (p : payload) : option exn :=
  match p with
  | Json _ => None
  | NotJson _ => Some JSONDecodeError
  | NotUtf8 _ => Some UnicodeDecodeError
  end.

(** The method and the path of the request each command asks for, in the
    order of the branches of [__main__]. *)
Definition request_line (cmd : string) (argv : list string)
  : option (string * string) :=
  if String.eqb cmd "tweet" then Some ("POST", "/2/tweets")
  else if String.eqb cmd "reply" then Some ("POST", "/2/tweets")
  else if String.eqb cmd "like" then
    Some ("POST", "/2/users/2013700835654672388/likes")
  else if String.eqb cmd "retweet" then
    Some ("POST", "/2/users/2013700835654672388/retweets")
  else if String.eqb cmd "delete" then
    Some ("DELETE", "/2/tweets/" ++ nth 2 argv "")
  else if String.eqb cmd "bio" then
    Some ("POST", "/1.1/account/update_profile.json")
  else if String.eqb cmd "dm" then Some ("POST", "/2/dm_conversations")
  else if String.eqb cmd "dm-conv" then
    Some ("POST", "/2/dm_conversations/" ++ nth 2 argv "" ++ "/messages")
  else None.

(** The exception [conn.request] raises for the request of a command, if
    it raises one. *)
Definition refused (cmd : string) (argv : list string) : option exn :=
  match request_line cmd argv with
  | Some (method, path) => wire_error method path
  | None => None
  end.

(** Running [m] from [w] stops on an uncaught exception and prints
    nothing: on [refusal], with nothing sent, if [conn.request] refuses the
    request line; else on [x], after the one request is sent. *)
Definition stops_unreported (m : M unit) (w : World) (refusal : option exn)
    (x : exn) : Prop :=
  w_stdout (snd (m w)) = w_stdout w
  /\ match refusal with
     | Some r => fst (m w) = inr r /\ w_sent (snd (m w)) = w_sent w
     | None =>
         fst (m w) = inr x
         /\ length (w_sent (snd (m w))) = S (length (w_sent w))
     end.

(** Running [m] from [w] called the signer for [method] and [url] with the
    extra parameters [extra]: the [oauth] dict the signer built for them is
    in memory afterwards, at a place that was free before. *)
Definition signed_in_memory (e : Env) (m : M unit) (w : World)
    (method url : string) (extra : dict) : Prop :=
  exists lo,
    w_heap w !! lo = None
    /\ w_heap (snd (m w)) !! lo
       = Some (signed_fields (str_of_int (clock e)) (token_hex e) method url extra).

(** Running [m] from [w] puts this one request on the wire, signed with
    the extra parameters [extra], unless [conn.request] refuses its request
    line; then nothing is put on the wire. *)
Definition sends_unless_refused (e : Env) (m : M unit) (w : World)
    (method host path : string) (body : wire_body) (content_type : string)
    (extra : dict) : Prop :=
  w_sent (snd (m w))
  = (w_sent w
     ++ match wire_error method path with
        | Some _ => []
        | None =>
            [ {| req_method := method; req_path := path; req_host := host;
                 req_body := body;
                 req_headers :=
                   [("Authorization",
                     authorization e method ("https://" ++ host ++ path) extra);
                    ("Content-Type", content_type)] |} ]
        end)%list.

(** A computation that leaves the memory as it is. *)
Definition keeps_heap {A} (m : M A) : Prop :=
  forall w, w_heap (snd (m w)) = w_heap w.

(** A computation that only adds lines to what is printed. *)
Definition appends_stdout {A} (m : M A) : Prop :=
  forall w, exists ls, w_stdout (snd (m w)) = (w_stdout w ++ ls)%list.

(** ** Vocabulary for the outcome of a run *)

(** Running [m] from [w] ends with the result [r] after printing the lines
    [ls], and nothing else. *)
Definition outcome (m : M unit) (w : World) (r : unit + exn) (ls : list line) : Prop :=
  fst (m w) = r /\ w_stdout (snd (m w)) = (w_stdout w ++ ls)%list.

(** One field of the header, as line 37 writes it. *)
Definition header_field (kv : string * string) : string :=
  fst kv ++ "=" ++ dq ++ quote (snd kv) ++ dq.

(** The keys of a dict need no escaping. *)
Definition plain_keys (d : dict) : Prop :=
  Forall (fun kv => quote (fst kv) = fst kv) d.

(** A command line that names a recognised command and gives it the
    arguments its branch reads. *)
Definition complete_call (argv : list string) : Prop :=
  exists cmd n, nth_error argv 1 = Some cmd /\ arity cmd = Some n
                /\ (2 + n <= length argv)%nat.

(** A request as every command builds it: to the API host, with the two
    headers, the first of them an OAuth header. *)
Definition api_request_shape (r : Request) : Prop :=
  req_host r = "api.twitter.com"
  /\ keys (req_headers r) = ["Authorization"; "Content-Type"]
  /\ exists auth, dict_get "Authorization" (req_headers r) = Some auth
                  /\ String.prefix "OAuth oauth_consumer_key=" auth = true.

(** * Test vectors *)

Example sha1_abc :
  hex_of (SHA1.digest (Bytes.encode "abc"))
  = "a9993e364706816aba3e25717850c26c9cd0d89d".
Proof. vm_compute. reflexivity. Qed.

Example sha1_two_blocks :
  hex_of (SHA1.digest (Bytes.encode
    "abcdbcdecdefdefgefghfghighijhijkijkljklmklmnlmnomnopnopq"))
  = "84983e441c3bd26ebaae4aa1f95129e5e54670f1".
Proof. vm_compute. reflexivity. Qed.

Example hmac_rfc2202_case2 :
  hex_of (HMAC.digest (Bytes.encode "Jefe")
                      (Bytes.encode "what do ya want for nothing?"))
  = "effcdf6ae5eb2fa2d27416d5f184df9c259a7c79".
Proof. vm_compute. reflexivity. Qed.

Example hmac_rfc2202_case6 :
  hex_of (HMAC.digest (repeat 170 80)
    (Bytes.encode "Test Using Larger Than Block-Size Key - Hash Key First"))
  = "aa4ae5e15272d00e95705637ce8a3b55ed402112".
Proof. vm_compute. reflexivity. Qed.

Example b64_rfc4648 :
  map (fun s => Base64.b64encode (Bytes.encode s))
      ["" ; "f"; "fo"; "foo"; "foob"; "fooba"; "foobar"]
  = [""; "Zg=="; "Zm8="; "Zm9v"; "Zm9vYg=="; "Zm9vYmE="; "Zm9vYmFy"].
Proof. vm_compute. reflexivity. Qed.

(** * Properties *)

(** ** The order [sorted] uses *)

Section Order.

Lemma ascii_compare_lt_trans (a b c : ascii) :
  Ascii.compare a b = Lt -> Ascii.compare b c = Lt -> Ascii.compare a c = Lt.
Proof.
  unfold Ascii.compare. rewrite !N.compare_lt_iff. lia.
Qed.

Lemma ascii_compare_refl (a : ascii) : Ascii.compare a a = Eq.
Proof. unfold Ascii.compare. apply N.compare_refl. Qed.

Lemma compare_refl (s : string) : String.compare s s = Eq.
Proof.
  induction s as [|a s IH]; simpl; [reflexivity|].
  now rewrite ascii_compare_refl.
Qed.

Lemma compare_lt_trans (s1 s2 s3 : string) :
  String.compare s1 s2 = Lt -> String.compare s2 s3 = Lt ->
  String.compare s1 s3 = Lt.
Proof.
  revert s2 s3.
  induction s1 as [|a s1 IH]; intros [|b s2] [|c s3]; simpl; try congruence.
  destruct (Ascii.compare a b) eqn:Hab; try discriminate;
    destruct (Ascii.compare b c) eqn:Hbc; try discriminate; intros H1 H2.
  - apply Ascii.compare_eq_iff in Hab, Hbc. subst.
    rewrite ascii_compare_refl. eauto.
  - apply Ascii.compare_eq_iff in Hab. subst. now rewrite Hbc.
  - apply Ascii.compare_eq_iff in Hbc. subst. now rewrite Hab.
  - now rewrite (ascii_compare_lt_trans a b c).
Qed.

Lemma ltb_lt (s1 s2 : string) :
  String.ltb s1 s2 = true <-> String.compare s1 s2 = Lt.
Proof. unfold String.ltb. destruct (String.compare s1 s2); intuition congruence. Qed.

Lemma ltb_irrefl (s : string) : String.ltb s s = false.
Proof. unfold String.ltb. now rewrite compare_refl. Qed.

Lemma ltb_trans (s1 s2 s3 : string) :
  String.ltb s1 s2 = true -> String.ltb s2 s3 = true -> String.ltb s1 s3 = true.
Proof. rewrite !ltb_lt. apply compare_lt_trans. Qed.

Lemma ltb_asym (s1 s2 : string) :
  String.ltb s1 s2 = true -> String.ltb s2 s1 = false.
Proof.
  intros H. destruct (String.ltb s2 s1) eqn:H'; [|reflexivity].
  pose proof (ltb_trans _ _ _ H H') as Hc. now rewrite ltb_irrefl in Hc.
Qed.

(** Two strings neither of which is below the other are equal. *)
Lemma ltb_trichotomy (s1 s2 : string) :
  String.ltb s1 s2 = false -> String.ltb s2 s1 = false -> s1 = s2.
Proof.
  unfold String.ltb. rewrite (String.compare_antisym s2 s1).
  destruct (String.compare s1 s2) eqn:H; simpl; try discriminate.
  intros _ _. now apply String.compare_eq_iff.
Qed.

Lemma item_ltb_irrefl a : item_ltb a a = false.
Proof. unfold item_ltb. rewrite String.eqb_refl. apply ltb_irrefl. Qed.

Lemma item_ltb_trans a b c :
  item_ltb a b = true -> item_ltb b c = true -> item_ltb a c = true.
Proof.
  destruct a as [ka va], b as [kb vb], c as [kc vc]. unfold item_ltb. simpl.
  destruct (String.eqb_spec ka kb) as [->|Hab];
    destruct (String.eqb_spec kb kc) as [->|Hbc].
  - apply ltb_trans.
  - intros _ H. destruct (String.eqb_spec kb kc); [contradiction|exact H].
  - intros H _. destruct (String.eqb_spec ka kc); [contradiction|exact H].
  - intros H1 H2. pose proof (ltb_trans _ _ _ H1 H2) as H3.
    destruct (String.eqb_spec ka kc) as [->|]; [|exact H3].
    now rewrite ltb_irrefl in H3.
Qed.

Lemma item_ltb_trichotomy a b :
  item_ltb a b = false -> item_ltb b a = false -> a = b.
Proof.
  destruct a as [ka va], b as [kb vb]. unfold item_ltb. simpl.
  rewrite (String.eqb_sym kb ka).
  destruct (String.eqb_spec ka kb) as [->|Hab]; intros H1 H2.
  - f_equal. now apply ltb_trichotomy.
  - exfalso. apply Hab. now apply ltb_trichotomy.
Qed.

#[global] Instance item_le_total : Total item_le.
Proof.
  intros a b. unfold item_le.
  destruct (item_ltb b a) eqn:H; [right|left; reflexivity].
  destruct (item_ltb a b) eqn:H'; [|reflexivity].
  pose proof (item_ltb_trans _ _ _ H H') as Hc. now rewrite item_ltb_irrefl in Hc.
Qed.

#[global] Instance item_le_antisym : AntiSymm (=) item_le.
Proof. intros a b H1 H2. now apply item_ltb_trichotomy. Qed.

#[global] Instance item_le_trans : Transitive item_le.
Proof.
  intros a b c Hab Hbc. unfold item_le in *.
  destruct (item_ltb c a) eqn:Hca; [|reflexivity].
  destruct (item_ltb a b) eqn:H1.
  - pose proof (item_ltb_trans _ _ _ Hca H1). congruence.
  - assert (a = b) by now apply item_ltb_trichotomy. subst. congruence.
Qed.

(** [sorted] depends on the entries only, not on the order they come in. *)
Lemma sorted_perm (l1 l2 : list (string * string)) :
  l1 ≡ₚ l2 -> sorted l1 = sorted l2.
Proof.
  intros HP. unfold sorted.
  apply (Sorted_unique item_le); try apply Sorted_merge_sort; try apply _.
  now rewrite !merge_sort_Permutation.
Qed.

Lemma sorted_Sorted l : Sorted item_le (sorted l).
Proof. apply Sorted_merge_sort; apply _. Qed.

Lemma sorted_Permutation l : sorted l ≡ₚ l.
Proof. apply merge_sort_Permutation. Qed.

End Order.

(** ** Dictionaries *)

Section Dicts.

Lemma dict_get_set k k' v d :
  dict_get k (dict_set k' v d) = if String.eqb k' k then Some v else dict_get k d.
Proof.
  induction d as [|[k0 v0] d IH]; simpl.
  - unfold dict_get. simpl. now destruct (String.eqb k' k).
  - destruct (String.eqb_spec k0 k') as [->|Hne].
    + unfold dict_get. simpl. now destruct (String.eqb k' k).
    + unfold dict_get in *. simpl.
      destruct (String.eqb_spec k0 k) as [->|Hne'].
      * destruct (String.eqb_spec k' k); [congruence|reflexivity].
      * exact IH.
Qed.

Lemma keys_set k v d :
  keys (dict_set k v d) = if bool_decide (k ∈ keys d) then keys d else (keys d ++ [k])%list.
Proof.
  induction d as [|[k0 v0] d IH]; simpl; [reflexivity|].
  destruct (String.eqb_spec k0 k) as [->|Hne]; simpl.
  - rewrite bool_decide_eq_true_2; [reflexivity|]. unfold keys. simpl. left.
  - unfold keys in *. simpl. rewrite IH.
    destruct (bool_decide (k ∈ map fst d)) eqn:Hin.
    + apply bool_decide_eq_true_1 in Hin.
      rewrite bool_decide_eq_true_2; [reflexivity|]. now right.
    + apply bool_decide_eq_false_1 in Hin.
      rewrite bool_decide_eq_false_2; [reflexivity|].
      intros H. apply elem_of_cons in H as [H|H]; congruence.
Qed.

Lemma NoDup_keys_set k v d : NoDup (keys d) -> NoDup (keys (dict_set k v d)).
Proof.
  intros H. rewrite keys_set. case_bool_decide; [exact H|].
  apply NoDup_app. split; [exact H|]. split.
  - intros x Hx Hx'. apply list_elem_of_singleton in Hx'. congruence.
  - apply NoDup_singleton.
Qed.

Lemma NoDup_keys_merge a b : NoDup (keys a) -> NoDup (keys (dict_merge a b)).
Proof.
  unfold dict_merge. revert a.
  induction b as [|[k v] b IH]; intros a Ha; simpl; [exact Ha|].
  apply IH. now apply NoDup_keys_set.
Qed.

Lemma dict_get_None k (d : dict) : k ∉ keys d -> dict_get k d = None.
Proof.
  induction d as [|[k0 v0] d IH]; intros H; [reflexivity|].
  unfold dict_get in *. simpl.
  destruct (String.eqb_spec k0 k) as [->|Hne].
  - exfalso. apply H. left.
  - apply IH. intros Hin. apply H. now right.
Qed.

(** In a merge the second dict wins. *)
Lemma dict_get_merge k a b :
  NoDup (keys b) ->
  dict_get k (dict_merge a b)
  = match dict_get k b with Some v => Some v | None => dict_get k a end.
Proof.
  unfold dict_merge. revert a.
  induction b as [|[k0 v0] b IH]; intros a Hb; simpl; [reflexivity|].
  apply NoDup_cons in Hb as [Hk0 Hb]. rewrite IH by exact Hb.
  rewrite dict_get_set. unfold dict_get at 3. simpl.
  destruct (String.eqb_spec k0 k) as [->|Hne]; simpl.
  - now rewrite (dict_get_None k b Hk0).
  - reflexivity.
Qed.

Lemma elem_of_dict k v (d : dict) :
  NoDup (keys d) -> (k, v) ∈ d <-> dict_get k d = Some v.
Proof.
  induction d as [|[k0 v0] d IH]; intros Hd.
  - split; [intros H; inversion H|discriminate].
  - apply NoDup_cons in Hd as [Hk0 Hd]. unfold dict_get in *. simpl.
    destruct (String.eqb_spec k0 k) as [->|Hne]; simpl.
    + split.
      * intros H. apply elem_of_cons in H as [H|H]; [congruence|].
        exfalso. apply Hk0. unfold keys. apply list_elem_of_fmap.
        exists (k, v). split; [reflexivity|exact H].
      * intros [= ->]. left.
    + rewrite <- (IH Hd). split.
      * intros H. apply elem_of_cons in H as [H|H]; [congruence|exact H].
      * intros H. now right.
Qed.

(** Two dicts with the same lookups have the same entries. *)
Lemma same_lookups_perm (d1 d2 : dict) :
  NoDup (keys d1) -> NoDup (keys d2) ->
  (forall k, dict_get k d1 = dict_get k d2) -> d1 ≡ₚ d2.
Proof.
  intros H1 H2 Hget. apply NoDup_Permutation.
  - now apply (NoDup_fmap_1 fst).
  - now apply (NoDup_fmap_1 fst).
  - intros [k v]. rewrite !elem_of_dict by assumption. now rewrite Hget.
Qed.

Lemma NoDup_keys_meta ts nonce : NoDup (keys (oauth_meta ts nonce)).
Proof.
  unfold keys. simpl. apply NoDup_ListNoDup.
  repeat constructor; simpl; intuition discriminate.
Qed.

End Dicts.

(** ** Running the signer *)

Section Signer.

Lemma bind_eq {A B} (m : M A) (k : A -> M B) w a w' :
  m w = (inl a, w') -> bind m k w = k a w'.
Proof. intros H. unfold bind. now rewrite H. Qed.

Lemma bind_raise {A B} (m : M A) (k : A -> M B) w e w' :
  m w = (inr e, w') -> bind m k w = (inr e, w').
Proof. intros H. unfold bind. now rewrite H. Qed.

Lemma fresh_None (h : gmap loc dict) : h !! fresh (dom h) = None.
Proof. apply not_elem_of_dom, is_fresh. Qed.

Lemma fresh_ne (h : gmap loc dict) l d : h !! l = Some d -> fresh (dom h) <> l.
Proof. intros H <-. rewrite fresh_None in H. discriminate. Qed.

Lemma or_empty_run x h out sent :
  extra_ok x h ->
  exists lx h',
    or_empty x {| w_heap := h; w_stdout := out; w_sent := sent |}
    = (inl lx, {| w_heap := h'; w_stdout := out; w_sent := sent |})
    /\ h' !! lx = Some (extra_dict x h)
    /\ (forall l d, h !! l = Some d -> h' !! l = Some d).
Proof.
  intros Hx. destruct x as [l|]; cbn [extra_ok extra_dict or_empty] in *.
  - destruct Hx as [d Hd]. rewrite Hd. cbn [default].
    erewrite bind_eq by (unfold read_dict; cbn [w_heap]; rewrite Hd; reflexivity).
    cbn [default]. destruct d as [|kv d].
    + eexists _, _. split; [reflexivity|]. cbn [w_heap]. split.
      * apply lookup_insert_eq.
      * intros l' d' Hl'. rewrite lookup_insert_ne; [exact Hl'|].
        now apply fresh_ne with d'.
    + exists l, h. split; [reflexivity|]. split; [exact Hd|auto].
  - eexists _, _. split; [reflexivity|]. cbn [w_heap]. split.
    + apply lookup_insert_eq.
    + intros l' d' Hl'. rewrite lookup_insert_ne; [exact Hl'|].
      now apply fresh_ne with d'.
Qed.

Lemma extra_dict_insert x h l d :
  extra_ok x h -> h !! l = None -> extra_dict x (<[l := d]> h) = extra_dict x h.
Proof.
  destruct x as [lx|]; [|reflexivity]. cbn [extra_ok extra_dict].
  intros [dx Hdx] Hl. rewrite lookup_insert_ne; [reflexivity|congruence].
Qed.

Lemma extra_ok_insert x h l d :
  extra_ok x h -> h !! l = None -> extra_ok x (<[l := d]> h).
Proof.
  destruct x as [lx|]; [|auto]. cbn [extra_ok].
  intros [dx Hdx] Hl. rewrite lookup_insert_ne; [eauto|congruence].
Qed.

(** One call of the signer: the header it returns, the objects it leaves
    alone, and where it keeps its own [oauth] dict. *)
Lemma oauth_sign_run e method url x w :
  extra_ok x (w_heap w) ->
  exists h' lo,
    oauth_sign e method url x w
    = (inl (header (signed_fields (str_of_int (clock e)) (token_hex e)
                                  method url (extra_dict x (w_heap w)))),
       {| w_heap := h'; w_stdout := w_stdout w; w_sent := w_sent w |})
    /\ (forall l d, w_heap w !! l = Some d -> h' !! l = Some d)
    /\ w_heap w !! lo = None
    /\ h' !! lo = Some (signed_fields (str_of_int (clock e)) (token_hex e)
                                      method url (extra_dict x (w_heap w))).
Proof.
  destruct w as [h out sent]. cbn [w_heap w_stdout w_sent]. intros Hx.
  unfold oauth_sign, signed_fields, oauth_signature.
  set (meta := oauth_meta _ _).
  set (l1 := fresh (dom h)).
  pose proof (fresh_None h) as Hl1. fold l1 in Hl1.
  set (h1 := <[l1 := meta]> h).
  destruct (or_empty_run x h1 out sent) as (lx & h2 & Hrun & Hlx & Hframe).
  { now apply extra_ok_insert. }
  unfold h1 in Hlx. rewrite extra_dict_insert in Hlx by assumption. fold h1 in Hlx.
  assert (E1 : h2 !! l1 = Some meta).
  { apply Hframe. unfold h1. apply lookup_insert_eq. }
  set (l3 := fresh (dom h2)).
  assert (Hl13 : l3 <> l1) by (now apply fresh_ne with meta).
  erewrite bind_eq by (unfold new_dict; cbn [w_heap w_stdout w_sent]; reflexivity).
  fold l1 h1.
  erewrite bind_eq by exact Hrun.
  erewrite bind_eq
    by (unfold read_dict; cbn [w_heap]; rewrite E1; reflexivity).
  erewrite bind_eq
    by (unfold read_dict; cbn [w_heap]; rewrite Hlx; reflexivity).
  erewrite bind_eq by (unfold new_dict; cbn [w_heap w_stdout w_sent]; reflexivity).
  fold l3.
  erewrite bind_eq
    by (unfold read_dict; cbn [w_heap]; rewrite lookup_insert_eq; reflexivity).
  erewrite bind_eq
    by (unfold setitem; cbn [w_heap w_stdout w_sent];
        rewrite lookup_insert_ne, E1 by exact Hl13; reflexivity).
  erewrite bind_eq
    by (unfold read_dict; cbn [w_heap]; rewrite lookup_insert_eq; reflexivity).
  cbn [default]. unfold ret.
  eexists _, l1. split; [reflexivity|]. split; [|split].
  - intros l d Hl.
    assert (l1 <> l) by (now apply fresh_ne with d).
    assert (Hl2 : h2 !! l = Some d).
    { apply Hframe. unfold h1. now rewrite lookup_insert_ne. }
    assert (l3 <> l) by (now apply fresh_ne with d).
    now rewrite !lookup_insert_ne.
  - exact Hl1.
  - apply lookup_insert_eq.
Qed.

End Signer.

Section Agree.

(** Any sorted arrangement of the entries is the one [sorted] returns:
    the result does not depend on the sorting algorithm. *)
Lemma sorted_spec (l l' : list (string * string)) :
  Sorted item_le l' -> l' ≡ₚ l -> sorted l = l'.
Proof.
  intros HS HP. apply (Sorted_unique item_le); try apply _.
  - apply sorted_Sorted.
  - exact HS.
  - rewrite sorted_Permutation. now symmetry.
Qed.

Lemma encode_strongly_sorted (s : list (string * string)) :
  StronglySorted item_le s ->
  NoDup (keys s) ->
  Forall (fun kv => quote (fst kv) = fst kv) s ->
  StronglySorted item_le (map encode_item s).
Proof.
  induction s as [|a s IH]; intros HS HN HF; [constructor|].
  apply StronglySorted_inv in HS as [HS Ha].
  apply NoDup_cons in HN as [Hna HN].
  apply Forall_cons in HF as [Hqa HF].
  cbn [map]. constructor; [now apply IH|].
  apply Forall_fmap. apply Forall_forall. intros b Hb.
  rewrite Forall_forall in Ha, HF. specialize (Ha b Hb). specialize (HF b Hb).
  unfold compose, item_le, item_ltb, encode_item in *. cbn [fst snd] in *.
  rewrite Hqa, HF.
  assert (Hne : fst b <> fst a).
  { intros E. apply Hna. rewrite <- E. unfold keys.
    apply list_elem_of_fmap. now exists b. }
  destruct (String.eqb_spec (fst b) (fst a)); [contradiction|exact Ha].
Qed.

(** When no key needs escaping, sorting before or after encoding makes
    no difference: the script's parameter string is the one sorted by
    encoded key. *)
Lemma param_string_agrees (all_p : dict) :
  NoDup (keys all_p) ->
  Forall (fun kv => quote (fst kv) = fst kv) all_p ->
  param_string all_p = spec_param_string all_p.
Proof.
  intros HN HF. unfold param_string, spec_param_string.
  rewrite (sorted_spec (map encode_item all_p) (map encode_item (sorted all_p))).
  - rewrite map_map. reflexivity.
  - apply StronglySorted_Sorted. apply encode_strongly_sorted.
    + apply Sorted_StronglySorted; [apply _|apply sorted_Sorted].
    + unfold keys. rewrite (sorted_Permutation all_p). exact HN.
    + rewrite (sorted_Permutation all_p). exact HF.
  - apply fmap_Permutation. apply sorted_Permutation.
Qed.

Lemma all_p_keys_unreserved ts nonce text :
  let all_p := dict_merge (oauth_meta ts nonce) [("description", text)] in
  NoDup (keys all_p) /\ Forall (fun kv => quote (fst kv) = fst kv) all_p.
Proof.
  split.
  - apply NoDup_keys_merge, NoDup_keys_meta.
  - cbn. repeat constructor.
Qed.

End Agree.

(** ** Percent-encoding *)

Section Quote.

Lemma escape_roundtrip (a : ascii) :
  ascii_of_N (unhex (hex_upper (N_of_ascii a / 16)) * 16
              + unhex (hex_upper (N_of_ascii a mod 16))) = a.
Proof.
  destruct a as [[] [] [] [] [] [] [] []]; vm_compute; reflexivity.
Qed.

Lemma unreserved_not_percent (a : ascii) :
  unreserved a = true -> Ascii.eqb a "%" = false.
Proof.
  destruct a as [[] [] [] [] [] [] [] []]; vm_compute; congruence.
Qed.

(** [quote] loses nothing: decoding gives the text back. *)
Lemma unquote_quote (s : string) : unquote (quote s) = s.
Proof.
  induction s as [|a s IH]; [reflexivity|].
  cbn [quote]. destruct (unreserved a) eqn:Hu.
  - cbn [unquote]. rewrite (unreserved_not_percent a Hu). now rewrite IH.
  - cbn [unquote]. rewrite Ascii.eqb_refl, IH. now rewrite escape_roundtrip.
Qed.

Lemma quote_inj (s1 s2 : string) : quote s1 = quote s2 -> s1 = s2.
Proof.
  intros H. rewrite <- (unquote_quote s1), <- (unquote_quote s2). now rewrite H.
Qed.

Lemma hex_upper_not_dq (a : ascii) :
  Ascii.eqb (hex_upper (N_of_ascii a / 16)) "034" = false
  /\ Ascii.eqb (hex_upper (N_of_ascii a mod 16)) "034" = false.
Proof.
  destruct a as [[] [] [] [] [] [] [] []]; vm_compute; split; reflexivity.
Qed.

Lemma unreserved_not_dq (a : ascii) :
  unreserved a = true -> Ascii.eqb a "034" = false.
Proof.
  destruct a as [[] [] [] [] [] [] [] []]; vm_compute; congruence.
Qed.

Lemma quote_no_dq (s : string) : free_of "034" (quote s) = true.
Proof.
  induction s as [|a s IH]; [reflexivity|].
  cbn [quote]. destruct (unreserved a) eqn:Hu; cbn [free_of].
  - now rewrite (unreserved_not_dq a Hu), IH.
  - destruct (hex_upper_not_dq a) as [-> ->]. now rewrite IH.
Qed.

(** Two texts free of a character, each followed by that character, end
    at the same place. *)
Lemma cut_at (c : ascii) (a b r1 r2 : string) :
  free_of c a = true -> free_of c b = true ->
  a ++ String c r1 = b ++ String c r2 -> a = b.
Proof.
  revert b. induction a as [|x a IH]; intros [|y b]; cbn [free_of append].
  - reflexivity.
  - intros _ Hb [= <- _]. now rewrite Ascii.eqb_refl in Hb.
  - intros Ha _ [= -> _]. now rewrite Ascii.eqb_refl in Ha.
  - intros Ha Hb [= <- H]. apply andb_true_iff in Ha as [_ Ha].
    apply andb_true_iff in Hb as [_ Hb]. f_equal. now apply IH.
Qed.

Lemma append_inv_head (p a b : string) : p ++ a = p ++ b -> a = b.
Proof. induction p as [|c p IH]; cbn [append]; [auto|]. intros [= H]. auto. Qed.

Lemma append_assoc (a b c : string) : (a ++ b) ++ c = a ++ (b ++ c).
Proof.
  induction a as [|x a IH]; [reflexivity|].
  change (String x ((a ++ b) ++ c) = String x (a ++ (b ++ c))). now f_equal.
Qed.

End Quote.

(** ** The request signer: the claims *)

Section SignerClaims.

Lemma sorted_meta ts nonce : sorted (oauth_meta ts nonce) = oauth_meta ts nonce.
Proof. vm_compute. reflexivity. Qed.

(** Without extra parameters the signature is the HMAC-SHA1 of the base
    string over the six metadata fields in key order. *)
Lemma oauth_sign_no_extra (e : Env) (method url : string) (w : World) :
  let ts := str_of_int (clock e) in
  let nonce := token_hex e in
  let ps := join "&"
    [ quote "oauth_consumer_key" ++ "=" ++ quote AK;
      quote "oauth_nonce" ++ "=" ++ quote nonce;
      quote "oauth_signature_method" ++ "=" ++ quote "HMAC-SHA1";
      quote "oauth_timestamp" ++ "=" ++ quote ts;
      quote "oauth_token" ++ "=" ++ quote AT;
      quote "oauth_version" ++ "=" ++ quote "1.0" ] in
  let bs := method ++ "&" ++ quote url ++ "&" ++ quote ps in
  let sk := quote AKS ++ "&" ++ quote ATS in
  let sig := Base64.b64encode (HMAC.digest (Bytes.encode sk) (Bytes.encode bs)) in
  fst (oauth_sign e method url None w)
  = inl (header (oauth_meta ts nonce ++ [("oauth_signature", sig)])%list).
Proof.
  intros ts nonce ps bs sk sig.
  destruct (oauth_sign_run e method url None w I) as (h' & lo & -> & _).
  cbn [fst extra_dict].
  unfold signed_fields, oauth_signature, param_string.
  change (dict_merge (oauth_meta (str_of_int (clock e)) (token_hex e)) [])
    with (oauth_meta ts nonce).
  rewrite sorted_meta. reflexivity.
Qed.

(** C1. For method POST, url https://api.example.com/2/tweets, no extra
    parameters, the timestamp pinned to 1700000000 and the nonce pinned to
    0123456789abcdef0123456789abcdef, [oauth_sign] returns the header whose
    [oauth_signature] is the base64 text of the HMAC-SHA1 digest of the
    base string METHOD & quote(url) & quote(sorted parameter string), keyed
    by quote(consumer secret) & quote(token secret), and that signature is
    the reference value VfRbFXRTmrBe4pl7y+Wfp0kMjlw=. *)
Theorem C1_signature_reference_vector (r : Response) (w : World) :
  let ps :=
    "oauth_consumer_key=" ++ AK
    ++ "&oauth_nonce=0123456789abcdef0123456789abcdef"
    ++ "&oauth_signature_method=HMAC-SHA1"
    ++ "&oauth_timestamp=1700000000"
    ++ "&oauth_token=" ++ AT
    ++ "&oauth_version=1.0" in
  let bs := "POST" ++ "&" ++ quote reference_url ++ "&" ++ quote ps in
  let sk := quote AKS ++ "&" ++ quote ATS in
  let sig := Base64.b64encode (HMAC.digest (Bytes.encode sk) (Bytes.encode bs)) in
  fst (oauth_sign (pinned r) "POST" reference_url None w)
  = inl (header (oauth_meta "1700000000" reference_nonce
                 ++ [("oauth_signature", sig)])%list)
  /\ sig = "VfRbFXRTmrBe4pl7y+Wfp0kMjlw="
  /\ fst (oauth_sign (pinned r) "POST" reference_url None w)
     = inl ("OAuth oauth_consumer_key=" ++ dq ++ AK ++ dq
            ++ ", oauth_nonce=" ++ dq ++ reference_nonce ++ dq
            ++ ", oauth_signature_method=" ++ dq ++ "HMAC-SHA1" ++ dq
            ++ ", oauth_timestamp=" ++ dq ++ "1700000000" ++ dq
            ++ ", oauth_token=" ++ dq ++ AT ++ dq
            ++ ", oauth_version=" ++ dq ++ "1.0" ++ dq
            ++ ", oauth_signature=" ++ dq ++ "VfRbFXRTmrBe4pl7y%2BWfp0kMjlw%3D" ++ dq).
Proof.
  intros ps bs sk sig.
  pose proof (oauth_sign_no_extra (pinned r) "POST" reference_url w) as H.
  cbv zeta in H.
  assert (Hsig : sig = "VfRbFXRTmrBe4pl7y+Wfp0kMjlw=") by (vm_compute; reflexivity).
  split; [|split; [exact Hsig|]].
  - rewrite H. vm_compute. reflexivity.
  - rewrite H. vm_compute. reflexivity.
Qed.

(** C2. The parameter string is sorted by raw key, not by percent-encoded
    key: for the extra parameters {a/: 1, a-: 2} the encoded key a%2F is
    below the encoded key a-, yet [oauth_sign] puts a- first in the
    parameter string it signs; the string sorted by encoded key, and the
    signature over it, are different. *)
Theorem C2_sorted_by_raw_key :
  let extra := [("a/", "1"); ("a-", "2")] in
  let w := {| w_heap := {[ 1%positive := extra ]}; w_stdout := []; w_sent := [] |} in
  let all_p := dict_merge (oauth_meta "1700000000" reference_nonce) extra in
  let rest :=
    "&oauth_consumer_key=" ++ AK
    ++ "&oauth_nonce=0123456789abcdef0123456789abcdef"
    ++ "&oauth_signature_method=HMAC-SHA1"
    ++ "&oauth_timestamp=1700000000"
    ++ "&oauth_token=" ++ AT
    ++ "&oauth_version=1.0" in
  String.ltb (quote "a/") (quote "a-") = true
  /\ param_string all_p = "a-=2&a%2F=1" ++ rest
  /\ spec_param_string all_p = "a%2F=1&a-=2" ++ rest
  /\ fst (oauth_sign (pinned {| resp_status := 200; resp_body := Json JNull |})
                     "POST" reference_url (Some 1%positive) w)
     = inl (header (oauth_meta "1700000000" reference_nonce
                    ++ [("oauth_signature",
                         sign signing_key
                              (base_string "POST" reference_url
                                           ("a-=2&a%2F=1" ++ rest)))])%list)
  /\ sign signing_key (base_string "POST" reference_url ("a-=2&a%2F=1" ++ rest))
     <> sign signing_key (base_string "POST" reference_url ("a%2F=1&a-=2" ++ rest)).
Proof.
  cbv zeta. repeat split; try (vm_compute; reflexivity).
  vm_compute. discriminate.
Qed.

Lemma same_mapping_merge (m d1 d2 : dict) :
  NoDup (keys m) -> same_mapping d1 d2 ->
  dict_merge m d1 ≡ₚ dict_merge m d2.
Proof.
  intros Hm (H1 & H2 & Hget). apply same_lookups_perm.
  - now apply NoDup_keys_merge.
  - now apply NoDup_keys_merge.
  - intros k. rewrite !dict_get_merge by assumption. now rewrite Hget.
Qed.

Lemma same_mapping_swap (k1 k2 v1 v2 : string) :
  k1 <> k2 -> same_mapping [(k1, v1); (k2, v2)] [(k2, v2); (k1, v1)].
Proof.
  intros Hne. split; [|split].
  - apply NoDup_ListNoDup. repeat constructor; simpl; intuition congruence.
  - apply NoDup_ListNoDup. repeat constructor; simpl; intuition congruence.
  - intros k. unfold dict_get. simpl.
    destruct (String.eqb_spec k1 k); destruct (String.eqb_spec k2 k);
      try reflexivity. congruence.
Qed.

(** C3. Signing is deterministic: two runs of [oauth_sign] for the same
    method and url, in any two worlds, that read the same timestamp and
    the same nonce and are given the same parameter mapping, return the
    same header, character for character, sign the same parameter string
    and compute the same signature. *)
Theorem C3_signing_deterministic
    (e1 e2 : Env) (method url : string) (x1 x2 : option loc) (w1 w2 : World) :
  clock e1 = clock e2 ->
  token_hex e1 = token_hex e2 ->
  extra_ok x1 (w_heap w1) ->
  extra_ok x2 (w_heap w2) ->
  same_mapping (extra_dict x1 (w_heap w1)) (extra_dict x2 (w_heap w2)) ->
  let ts := str_of_int (clock e1) in
  let nonce := token_hex e1 in
  let d1 := extra_dict x1 (w_heap w1) in
  let d2 := extra_dict x2 (w_heap w2) in
  fst (oauth_sign e1 method url x1 w1) = fst (oauth_sign e2 method url x2 w2)
  /\ (exists hdr, fst (oauth_sign e1 method url x1 w1) = inl hdr)
  /\ param_string (dict_merge (oauth_meta ts nonce) d1)
     = param_string (dict_merge (oauth_meta ts nonce) d2)
  /\ oauth_signature ts nonce method url d1 = oauth_signature ts nonce method url d2.
Proof.
  intros Hc Hn Hx1 Hx2 Hsame ts nonce d1 d2.
  assert (Hps : param_string (dict_merge (oauth_meta ts nonce) d1)
                = param_string (dict_merge (oauth_meta ts nonce) d2)).
  { unfold param_string. f_equal. f_equal. apply sorted_perm.
    apply same_mapping_merge; [apply NoDup_keys_meta|exact Hsame]. }
  assert (Hsig : oauth_signature ts nonce method url d1
                 = oauth_signature ts nonce method url d2).
  { unfold oauth_signature. rewrite Hps. reflexivity. }
  destruct (oauth_sign_run e1 method url x1 w1 Hx1) as (h1 & l1 & -> & _).
  destruct (oauth_sign_run e2 method url x2 w2 Hx2) as (h2 & l2 & -> & _).
  cbn [fst]. rewrite <- Hc, <- Hn. fold ts nonce d1 d2.
  unfold signed_fields. rewrite Hsig.
  split; [reflexivity|]. split; [eexists; reflexivity|].
  split; [exact Hps|reflexivity].
Qed.

Lemma C3_signing_deterministic_witness :
  fst (oauth_sign (pinned {| resp_status := 200; resp_body := Json JNull |})
         "POST" reference_url (Some 1%positive)
         {| w_heap := {[ 1%positive := [("a", "1"); ("b", "2")] ]};
            w_stdout := []; w_sent := [] |})
  = fst (oauth_sign (pinned {| resp_status := 403; resp_body := NotJson "no" |})
         "POST" reference_url (Some 5%positive)
         {| w_heap := {[ 5%positive := [("b", "2"); ("a", "1")] ]};
            w_stdout := [[Lit "earlier"]]; w_sent := [] |}).
Proof.
  apply (C3_signing_deterministic
           (pinned {| resp_status := 200; resp_body := Json JNull |})
           (pinned {| resp_status := 403; resp_body := NotJson "no" |})
           "POST" reference_url (Some 1%positive) (Some 5%positive)
           {| w_heap := {[ 1%positive := [("a", "1"); ("b", "2")] ]};
              w_stdout := []; w_sent := [] |}
           {| w_heap := {[ 5%positive := [("b", "2"); ("a", "1")] ]};
              w_stdout := [[Lit "earlier"]]; w_sent := [] |}).
  - reflexivity.
  - reflexivity.
  - vm_compute. eauto.
  - vm_compute. eauto.
  - apply (same_mapping_swap "a" "b" "1" "2"). discriminate.
Defined.

Lemma signed_fields_eq ts nonce method url extra :
  signed_fields ts nonce method url extra
  = (oauth_meta ts nonce
     ++ [("oauth_signature", oauth_signature ts nonce method url extra)])%list.
Proof. reflexivity. Qed.

(** The header, cut just before and just after the nonce. *)
Lemma header_around_nonce ts nonce sig :
  header (oauth_meta ts nonce ++ [("oauth_signature", sig)])%list
  = ("OAuth oauth_consumer_key=" ++ dq ++ quote AK ++ dq ++ ", oauth_nonce=" ++ dq)
    ++ (quote nonce
        ++ dq
        ++ ", "
        ++ join ", "
             [ "oauth_signature_method=" ++ dq ++ quote "HMAC-SHA1" ++ dq;
               "oauth_timestamp=" ++ dq ++ quote ts ++ dq;
               "oauth_token=" ++ dq ++ quote AT ++ dq;
               "oauth_version=" ++ dq ++ quote "1.0" ++ dq;
               "oauth_signature=" ++ dq ++ quote sig ++ dq ]).
Proof.
  unfold header, join. cbn [map fst snd oauth_meta app String.concat].
  rewrite !append_assoc. vm_compute. reflexivity.
Qed.

Lemma header_nonce_inj ts1 ts2 n1 n2 sig1 sig2 :
  header (oauth_meta ts1 n1 ++ [("oauth_signature", sig1)])%list
  = header (oauth_meta ts2 n2 ++ [("oauth_signature", sig2)])%list ->
  n1 = n2.
Proof.
  rewrite !header_around_nonce. intros H.
  apply append_inv_head in H. apply (cut_at "034") in H; try apply quote_no_dq.
  now apply quote_inj.
Qed.

(** Two signed dicts for the same timestamp. *)
Lemma fields_frame (ts n1 n2 s1 s2 : string) :
  let f1 := (oauth_meta ts n1 ++ [("oauth_signature", s1)])%list in
  let f2 := (oauth_meta ts n2 ++ [("oauth_signature", s2)])%list in
  keys f1 = [ "oauth_consumer_key"; "oauth_nonce"; "oauth_signature_method";
              "oauth_timestamp"; "oauth_token"; "oauth_version";
              "oauth_signature" ]
  /\ keys f2 = keys f1
  /\ (forall k, k <> "oauth_nonce" -> k <> "oauth_signature" ->
                dict_get k f1 = dict_get k f2)
  /\ (n1 <> n2 ->
      dict_get "oauth_nonce" f1 <> dict_get "oauth_nonce" f2
      /\ header f1 <> header f2).
Proof.
  intros f1 f2.
  split; [reflexivity|]. split; [reflexivity|]. split.
  - intros k Hk1 Hk2. unfold f1, f2, dict_get, oauth_meta.
    cbn [app find fst snd].
    repeat match goal with
           | |- context [String.eqb ?a k] =>
               destruct (String.eqb_spec a k); [try reflexivity; congruence|]
           end.
    reflexivity.
  - intros Hn. split.
    + unfold f1, f2, dict_get, oauth_meta. cbn. congruence.
    + intros H. apply Hn. now apply header_nonce_inj in H.
Qed.

(** C4. Signing the same request twice with the same pinned timestamp
    and nonce gives the same header; signing it twice with the same
    timestamp and two different nonces gives two headers over the same
    seven fields that agree on every field other than [oauth_nonce] and
    [oauth_signature], while their [oauth_nonce] fields, and so the
    headers, differ. *)
Theorem C4_fresh_nonce_frame
    (e1 e2 : Env) (method url : string) (x1 x2 : option loc) (w1 w2 : World) :
  clock e1 = clock e2 ->
  extra_ok x1 (w_heap w1) ->
  extra_ok x2 (w_heap w2) ->
  extra_dict x1 (w_heap w1) = extra_dict x2 (w_heap w2) ->
  let f1 := signed_fields (str_of_int (clock e1)) (token_hex e1) method url
                          (extra_dict x1 (w_heap w1)) in
  let f2 := signed_fields (str_of_int (clock e2)) (token_hex e2) method url
                          (extra_dict x2 (w_heap w2)) in
  fst (oauth_sign e1 method url x1 w1) = inl (header f1)
  /\ fst (oauth_sign e2 method url x2 w2) = inl (header f2)
  /\ keys f1 = [ "oauth_consumer_key"; "oauth_nonce"; "oauth_signature_method";
                 "oauth_timestamp"; "oauth_token"; "oauth_version";
                 "oauth_signature" ]
  /\ keys f2 = keys f1
  /\ (forall k, k <> "oauth_nonce" -> k <> "oauth_signature" ->
                dict_get k f1 = dict_get k f2)
  /\ (token_hex e1 = token_hex e2 -> header f1 = header f2)
  /\ (token_hex e1 <> token_hex e2 ->
      dict_get "oauth_nonce" f1 <> dict_get "oauth_nonce" f2
      /\ header f1 <> header f2).
Proof.
  intros Hc Hx1 Hx2 Hd f1 f2.
  destruct (oauth_sign_run e1 method url x1 w1 Hx1) as (h1 & l1 & R1 & _).
  destruct (oauth_sign_run e2 method url x2 w2 Hx2) as (h2 & l2 & R2 & _).
  split; [rewrite R1; reflexivity|]. split; [rewrite R2; reflexivity|].
  clear R1 R2.
  assert (Hs : token_hex e1 = token_hex e2 -> f1 = f2).
  { intros E. unfold f1, f2. rewrite Hc, Hd, E. reflexivity. }
  unfold f1, f2 in *. rewrite signed_fields_eq in *.
  rewrite <- Hc in *.
  destruct (fields_frame (str_of_int (clock e1)) (token_hex e1) (token_hex e2)
              (oauth_signature (str_of_int (clock e1)) (token_hex e1) method url
                               (extra_dict x1 (w_heap w1)))
              (oauth_signature (str_of_int (clock e1)) (token_hex e2) method url
                               (extra_dict x2 (w_heap w2))))
    as (K1 & K2 & K3 & K4).
  split; [exact K1|]. split; [exact K2|]. split; [exact K3|].
  split; [|exact K4].
  intros E. now rewrite (Hs E).
Qed.

Lemma C4_fresh_nonce_frame_witness :
  header (signed_fields "1700000000" reference_nonce "POST" reference_url [])
  <> header (signed_fields "1700000000" "ffffffffffffffffffffffffffffffff"
                            "POST" reference_url []).
Proof.
  apply (C4_fresh_nonce_frame
           (pinned {| resp_status := 200; resp_body := Json JNull |})
           {| clock := 1700000000; token_hex := "ffffffffffffffffffffffffffffffff";
              response := {| resp_status := 200; resp_body := Json JNull |} |}
           "POST" reference_url None None world0 world0).
  - reflexivity.
  - exact I.
  - exact I.
  - reflexivity.
  - discriminate.
Defined.

(** C9. [oauth_sign] does not mutate its [extra_params] argument, nor any
    other object that exists when it is called: after the call every such
    dict holds what it held before.  The signed fields are written to a
    dict of the signer's own, created during the call. *)
Theorem C9_extra_params_not_mutated
    (e : Env) (method url : string) (l : loc) (d : dict) (w : World) :
  w_heap w !! l = Some d ->
  let w' := snd (oauth_sign e method url (Some l) w) in
  w_heap w' !! l = Some d
  /\ (forall l' d', w_heap w !! l' = Some d' -> w_heap w' !! l' = Some d')
  /\ exists lo, w_heap w !! lo = None
                /\ w_heap w' !! lo
                   = Some (signed_fields (str_of_int (clock e)) (token_hex e)
                                         method url d).
Proof.
  intros Hl w'.
  assert (Hx : extra_ok (Some l) (w_heap w)) by (cbn; eauto).
  destruct (oauth_sign_run e method url (Some l) w Hx)
    as (h' & lo & Hrun & Hframe & Hlo & Hlo').
  subst w'. rewrite Hrun. cbn [snd w_heap].
  split; [now apply Hframe|]. split; [exact Hframe|].
  exists lo. split; [exact Hlo|].
  rewrite Hlo'. cbn [extra_dict]. rewrite Hl. reflexivity.
Qed.

Lemma C9_extra_params_not_mutated_witness :
  w_heap (snd (oauth_sign
                 (pinned {| resp_status := 200; resp_body := Json JNull |})
                 "POST" "https://api.twitter.com/1.1/account/update_profile.json"
                 (Some 1%positive)
                 {| w_heap := {[ 1%positive := [("description", "new bio")] ]};
                    w_stdout := []; w_sent := [] |}))
    !! 1%positive
  = Some [("description", "new bio")].
Proof.
  refine (proj1 (C9_extra_params_not_mutated
           (pinned {| resp_status := 200; resp_body := Json JNull |})
           "POST" "https://api.twitter.com/1.1/account/update_profile.json"
           1%positive [("description", "new bio")]
           {| w_heap := {[ 1%positive := [("description", "new bio")] ]};
              w_stdout := []; w_sent := [] |} _)).
  vm_compute. reflexivity.
Defined.

End SignerClaims.

(** ** Running the dispatcher *)

Section Dispatcher.

Lemma api_call_run e method path body ct host x w :
  extra_ok x (w_heap w) ->
  exists h' lo,
    api_call e method path body ct host x w
    = (api_result e method path,
       {| w_heap := h'; w_stdout := w_stdout w;
          w_sent := w_sent w
                    ++ match wire_error method path with
                       | Some _ => []
                       | None => [api_request e method path body ct host
                                              (extra_dict x (w_heap w))]
                       end |})
    /\ w_heap w !! lo = None
    /\ h' !! lo = Some (signed_fields (str_of_int (clock e)) (token_hex e) method
                                      ("https://" ++ host ++ path)
                                      (extra_dict x (w_heap w))).
Proof.
  intros Hx.
  destruct (oauth_sign_run e method ("https://" ++ host ++ path) x w Hx)
    as (h' & lo & Hrun & _ & Hlo & Hlo').
  exists h', lo. split; [|split; assumption].
  unfold api_call. erewrite bind_eq by exact Hrun.
  unfold api_result.
  destruct (wire_error method path) as [x0|] eqn:Hwire.
  - erewrite bind_raise
      by (unfold conn_request; cbn [req_method req_path]; rewrite Hwire; reflexivity).
    now rewrite app_nil_r.
  - erewrite bind_eq
      by (unfold conn_request; cbn [req_method req_path w_heap w_stdout w_sent];
          rewrite Hwire; reflexivity).
    unfold api_request, authorization.
    destruct (resp_body (response e)) as [j|raw|raw]; cbn [json_loads].
    + erewrite bind_eq by (unfold ret; reflexivity). reflexivity.
    + erewrite bind_raise by (unfold raise; reflexivity). reflexivity.
    + erewrite bind_raise by (unfold raise; reflexivity). reflexivity.
Qed.

(** [api_call] with the defaults, when the request line is accepted. *)
Lemma api_call_json_accepted e method path body w :
  wire_error method path = None ->
  exists h',
    api_call_json e method path body w
    = (match resp_body (response e) with
       | Json j => inl (resp_status (response e), j)
       | NotJson _ => inr JSONDecodeError
       | NotUtf8 _ => inr UnicodeDecodeError
       end,
       {| w_heap := h'; w_stdout := w_stdout w;
          w_sent := w_sent w
                    ++ [api_request e method path body "application/json"
                                    "api.twitter.com" []] |}).
Proof.
  intros Hwire. unfold api_call_json.
  destruct (api_call_run e method path body "application/json"
              "api.twitter.com" None w I) as (h' & lo & Hrun & _).
  unfold api_result in Hrun. rewrite Hwire in Hrun.
  exists h'. exact Hrun.
Qed.

(** [api_call] with the defaults, when the request line is refused. *)
Lemma api_call_json_refused e method path body w x :
  wire_error method path = Some x ->
  exists h',
    api_call_json e method path body w
    = (inr x, {| w_heap := h'; w_stdout := w_stdout w; w_sent := w_sent w |}).
Proof.
  intros Hwire. unfold api_call_json.
  destruct (api_call_run e method path body "application/json"
              "api.twitter.com" None w I) as (h' & lo & Hrun & _).
  unfold api_result in Hrun. rewrite Hwire, app_nil_r in Hrun.
  exists h'. exact Hrun.
Qed.

(** *** Computations that send nothing, and that leave the memory alone *)

Lemma keeps_sent_ret {A} (a : A) : keeps_sent (ret a).
Proof. intros w. reflexivity. Qed.

Lemma keeps_sent_raise {A} (x : exn) : keeps_sent (@raise A x).
Proof. intros w. reflexivity. Qed.

Lemma keeps_sent_lift {A} (r : A + exn) : keeps_sent (lift r).
Proof. destruct r; intros w; reflexivity. Qed.

Lemma keeps_sent_print l : keeps_sent (print l).
Proof. intros w. reflexivity. Qed.

Lemma keeps_sent_bind {A B} (m : M A) (k : A -> M B) :
  keeps_sent m -> (forall a, keeps_sent (k a)) -> keeps_sent (bind m k).
Proof.
  intros Hm Hk w. unfold bind. specialize (Hm w).
  destruct (m w) as [[a|x] w1]; cbn [snd] in *.
  - now rewrite Hk.
  - exact Hm.
Qed.

Lemma sent_after_bind {A B} (m : M A) (k : A -> M B) w :
  (forall a, keeps_sent (k a)) ->
  w_sent (snd (bind m k w)) = w_sent (snd (m w)).
Proof.
  intros Hk. unfold bind. destruct (m w) as [[a|x] w1]; cbn [snd].
  - apply Hk.
  - reflexivity.
Qed.

Lemma keeps_heap_ret {A} (a : A) : keeps_heap (ret a).
Proof. intros w. reflexivity. Qed.

Lemma keeps_heap_raise {A} (x : exn) : keeps_heap (@raise A x).
Proof. intros w. reflexivity. Qed.

Lemma keeps_heap_lift {A} (r : A + exn) : keeps_heap (lift r).
Proof. destruct r; intros w; reflexivity. Qed.

Lemma keeps_heap_print l : keeps_heap (print l).
Proof. intros w. reflexivity. Qed.

Lemma keeps_heap_bind {A B} (m : M A) (k : A -> M B) :
  keeps_heap m -> (forall a, keeps_heap (k a)) -> keeps_heap (bind m k).
Proof.
  intros Hm Hk w. unfold bind. specialize (Hm w).
  destruct (m w) as [[a|x] w1]; cbn [snd] in *.
  - now rewrite Hk.
  - exact Hm.
Qed.

Lemma heap_after_bind {A B} (m : M A) (k : A -> M B) w :
  (forall a, keeps_heap (k a)) ->
  w_heap (snd (bind m k w)) = w_heap (snd (m w)).
Proof.
  intros Hk. unfold bind. destruct (m w) as [[a|x] w1]; cbn [snd].
  - apply Hk.
  - reflexivity.
Qed.

Ltac keeps :=
  repeat first
    [ apply keeps_sent_ret | apply keeps_sent_raise | apply keeps_sent_lift
    | apply keeps_sent_print
    | apply keeps_sent_bind; [|intros]
    | apply keeps_heap_ret | apply keeps_heap_raise | apply keeps_heap_lift
    | apply keeps_heap_print
    | apply keeps_heap_bind; [|intros]
    | match goal with
      | |- keeps_sent (if ?b then _ else _) => destruct b
      | |- keeps_sent (match ?x with _ => _ end) => destruct x
      | |- keeps_heap (if ?b then _ else _) => destruct b
      | |- keeps_heap (match ?x with _ => _ end) => destruct x
      end ].

Lemma keeps_sent_report ok flag data : keeps_sent (report_flag ok flag data).
Proof. unfold report_flag. keeps. Qed.

Lemma keeps_heap_report ok flag data : keeps_heap (report_flag ok flag data).
Proof. unfold report_flag. keeps. Qed.

(** What a command built on [api_call] signs and sends. *)
Lemma api_command_wire e method path body (k : Z * json -> M unit) w :
  (forall a, keeps_sent (k a)) ->
  (forall a, keeps_heap (k a)) ->
  signed_in_memory e (bind (api_call_json e method path body) k) w
                   method ("https://api.twitter.com" ++ path) []
  /\ sends_unless_refused e (bind (api_call_json e method path body) k) w
        method "api.twitter.com" path (request_body body "application/json")
        "application/json" [].
Proof.
  intros Hk Hh. unfold signed_in_memory, sends_unless_refused.
  rewrite sent_after_bind by exact Hk. rewrite heap_after_bind by exact Hh.
  unfold api_call_json.
  destruct (api_call_run e method path body "application/json"
              "api.twitter.com" None w I) as (h' & lo & -> & Hlo & Hlo').
  cbn [snd w_heap w_sent extra_dict] in *. split.
  - exists lo. split; [exact Hlo|]. rewrite Hlo'. reflexivity.
  - reflexivity.
Qed.

(** What such a command puts on the wire. *)
Lemma api_command_unless_refused e method path body (k : Z * json -> M unit) w :
  (forall a, keeps_sent (k a)) ->
  sends_unless_refused e (bind (api_call_json e method path body) k) w
        method "api.twitter.com" path (request_body body "application/json")
        "application/json" [].
Proof.
  intros Hk. unfold sends_unless_refused.
  rewrite sent_after_bind by exact Hk. unfold api_call_json.
  destruct (api_call_run e method path body "application/json"
              "api.twitter.com" None w I) as (h' & lo & -> & _).
  reflexivity.
Qed.

(** The same when the request line is accepted. *)
Lemma api_command_sends e method path body (k : Z * json -> M unit) w :
  wire_error method path = None ->
  (forall a, keeps_sent (k a)) ->
  sends e (bind (api_call_json e method path body) k) w
        method "api.twitter.com" path (request_body body "application/json")
        "application/json" [].
Proof.
  intros Hwire Hk. unfold sends. rewrite sent_after_bind by exact Hk.
  unfold api_call_json.
  destruct (api_call_run e method path body "application/json"
              "api.twitter.com" None w I) as (h' & lo & -> & _).
  rewrite Hwire. reflexivity.
Qed.

(** What [bio] signs and sends. *)
Lemma bio_wire e text w :
  signed_in_memory e (bio e text) w "POST"
                   "https://api.twitter.com/1.1/account/update_profile.json"
                   [("description", text)]
  /\ sends e (bio e text) w "POST" "api.twitter.com"
           "/1.1/account/update_profile.json"
           (Text ("description=" ++ quote text))
           "application/x-www-form-urlencoded" [("description", text)].
Proof.
  unfold signed_in_memory, sends, bio. destruct w as [h out sent].
  erewrite bind_eq by (unfold new_dict; cbn [w_heap w_stdout w_sent]; reflexivity).
  set (l := fresh (dom h)).
  set (w1 := {| w_heap := <[l := [("description", text)]]> h;
                w_stdout := out; w_sent := sent |}).
  assert (Hx : extra_ok (Some l) (w_heap w1)).
  { cbn. rewrite lookup_insert_eq. eauto. }
  destruct (oauth_sign_run e "POST"
              "https://api.twitter.com/1.1/account/update_profile.json"
              (Some l) w1 Hx) as (h' & lo & Hrun & _ & Hlo & Hlo').
  erewrite bind_eq by exact Hrun.
  erewrite bind_eq
    by (unfold conn_request; cbn [w_heap w_stdout w_sent]; reflexivity).
  rewrite sent_after_bind by (intros a; keeps).
  rewrite heap_after_bind by (intros a; keeps).
  assert (Hk : keeps_sent (json_loads (resp_body (response e)))).
  { unfold json_loads. keeps. }
  assert (Hh : keeps_heap (json_loads (resp_body (response e)))).
  { unfold json_loads. keeps. }
  rewrite Hk, Hh. cbn [w_sent w_heap extra_dict w1] in *.
  rewrite lookup_insert_eq in Hlo'. cbn [default] in Hlo'.
  rewrite lookup_insert_eq. split; [|reflexivity].
  exists lo. split; [|exact Hlo'].
  apply lookup_insert_None in Hlo. tauto.
Qed.

(** C5. Each command signs over exactly the parameters that go with its
    request: [bio] hands the signer the one form field, description, and
    sends it form-encoded; every command with a JSON body (tweet, reply,
    like, retweet, delete, dm, dm-conv) hands the signer no extra
    parameter at all, so nothing of the JSON body is in the signature
    base.  This holds for every argument: the signer is called before the
    request is handed to the connection, and the one request that goes
    out carries that signature.  For [delete] and [dm-conv], whose path
    holds an argument, the request goes out unless [conn.request]
    refuses the request line, and then nothing goes out. *)
Theorem C5_signed_parameter_set (e : Env) (w : World) :
  (forall text,
      signed_in_memory e (tweet e text None) w "POST"
                       "https://api.twitter.com/2/tweets" []
      /\ sends e (tweet e text None) w "POST" "api.twitter.com" "/2/tweets"
               (Dumped (JDict [("text", JStr text)])) "application/json" [])
  /\ (forall text r,
         signed_in_memory e (tweet e text (Some r)) w "POST"
                          "https://api.twitter.com/2/tweets" []
         /\ sends e (tweet e text (Some r)) w "POST" "api.twitter.com" "/2/tweets"
                  (Dumped (JDict (if String.eqb r ""
                                  then [("text", JStr text)]
                                  else [("text", JStr text);
                                        ("reply",
                                         JDict [("in_reply_to_tweet_id", JStr r)])])))
                  "application/json" [])
  /\ (forall tweet_id,
         signed_in_memory e (like e tweet_id) w "POST"
                          "https://api.twitter.com/2/users/2013700835654672388/likes" []
         /\ sends e (like e tweet_id) w "POST" "api.twitter.com"
                  "/2/users/2013700835654672388/likes"
                  (Dumped (JDict [("tweet_id", JStr tweet_id)]))
                  "application/json" [])
  /\ (forall tweet_id,
         signed_in_memory e (retweet e tweet_id) w "POST"
                          "https://api.twitter.com/2/users/2013700835654672388/retweets" []
         /\ sends e (retweet e tweet_id) w "POST" "api.twitter.com"
                  "/2/users/2013700835654672388/retweets"
                  (Dumped (JDict [("tweet_id", JStr tweet_id)]))
                  "application/json" [])
  /\ (forall tweet_id,
         signed_in_memory e (delete e tweet_id) w "DELETE"
                          ("https://api.twitter.com" ++ "/2/tweets/" ++ tweet_id) []
         /\ sends_unless_refused e (delete e tweet_id) w "DELETE" "api.twitter.com"
                  ("/2/tweets/" ++ tweet_id) NoBody "application/json" [])
  /\ (forall recipient_id text,
         signed_in_memory e (dm e recipient_id text) w "POST"
                          "https://api.twitter.com/2/dm_conversations" []
         /\ sends e (dm e recipient_id text) w "POST" "api.twitter.com"
                  "/2/dm_conversations"
                  (Dumped (JDict [("text", JStr text);
                                  ("participant_ids", JList [JStr recipient_id])]))
                  "application/json" [])
  /\ (forall conversation_id text,
         signed_in_memory e (dm_to_conversation e conversation_id text) w "POST"
                          ("https://api.twitter.com" ++ "/2/dm_conversations/"
                           ++ conversation_id ++ "/messages") []
         /\ sends_unless_refused e (dm_to_conversation e conversation_id text) w
                  "POST" "api.twitter.com"
                  ("/2/dm_conversations/" ++ conversation_id ++ "/messages")
                  (Dumped (JDict [("text", JStr text)])) "application/json" [])
  /\ (forall text,
         signed_in_memory e (bio e text) w "POST"
                          "https://api.twitter.com/1.1/account/update_profile.json"
                          [("description", text)]
         /\ sends e (bio e text) w "POST" "api.twitter.com"
                  "/1.1/account/update_profile.json"
                  (Text ("description=" ++ quote text))
                  "application/x-www-form-urlencoded" [("description", text)]).
Proof.
  assert (Hconst : forall method path body (k : Z * json -> M unit),
             wire_error method path = None ->
             (forall a, keeps_sent (k a)) -> (forall a, keeps_heap (k a)) ->
             signed_in_memory e (bind (api_call_json e method path body) k) w
                              method ("https://api.twitter.com" ++ path) []
             /\ sends e (bind (api_call_json e method path body) k) w
                      method "api.twitter.com" path
                      (request_body body "application/json") "application/json" []).
  { intros method path body k Hwire Hk Hh. split.
    - now apply api_command_wire.
    - now apply api_command_sends. }
  split; [|split; [|split; [|split; [|split; [|split; [|split]]]]]]; intros.
  - apply (Hconst "POST" "/2/tweets" (Some (JDict [("text", JStr text)])));
      [reflexivity|intros a; keeps|intros a; keeps].
  - unfold tweet. destruct (String.eqb r ""); cbn [negb].
    + apply (Hconst "POST" "/2/tweets" (Some (JDict [("text", JStr text)])));
        [reflexivity|intros a; keeps|intros a; keeps].
    + apply (Hconst "POST" "/2/tweets"
               (Some (JDict [("text", JStr text);
                             ("reply", JDict [("in_reply_to_tweet_id", JStr r)])])));
        [reflexivity|intros a; keeps|intros a; keeps].
  - apply (Hconst "POST" "/2/users/2013700835654672388/likes"
             (Some (JDict [("tweet_id", JStr tweet_id)])));
      [reflexivity|intros a; apply keeps_sent_report|intros a; apply keeps_heap_report].
  - apply (Hconst "POST" "/2/users/2013700835654672388/retweets"
             (Some (JDict [("tweet_id", JStr tweet_id)])));
      [reflexivity|intros a; apply keeps_sent_report|intros a; apply keeps_heap_report].
  - apply (api_command_wire e "DELETE" ("/2/tweets/" ++ tweet_id) None);
      [intros a; apply keeps_sent_report|intros a; apply keeps_heap_report].
  - apply (Hconst "POST" "/2/dm_conversations"
             (Some (JDict [("text", JStr text);
                           ("participant_ids", JList [JStr recipient_id])])));
      [reflexivity|intros a; keeps|intros a; keeps].
  - apply (api_command_wire e "POST"
             ("/2/dm_conversations/" ++ conversation_id ++ "/messages")
             (Some (JDict [("text", JStr text)])));
      [intros a; keeps|intros a; keeps].
  - apply bio_wire.
Qed.

End Dispatcher.

(** ** The dispatcher: failures *)

Section Failures.

Lemma argv_bind {B} (argv : list string) (i : nat) (k : string -> M B) w :
  bind (argv_at argv i) k w
  = match nth_error argv i with
    | Some s => k s w
    | None => (inr IndexError, w)
    end.
Proof. unfold bind, argv_at. destruct (nth_error argv i); reflexivity. Qed.

(** A command built on [api_call], on a body that cannot be decoded. *)
Lemma api_command_stops e method path body (k : Z * json -> M unit) w x :
  decode_error (resp_body (response e)) = Some x ->
  stops_unreported (bind (api_call_json e method path body) k) w
                   (wire_error method path) x.
Proof.
  intros Hx. unfold stops_unreported.
  destruct (wire_error method path) as [r|] eqn:Hwire.
  - destruct (api_call_json_refused e method path body w r Hwire) as (h' & Hrun).
    erewrite bind_raise by exact Hrun. cbn [fst snd w_stdout w_sent].
    repeat split.
  - destruct (api_call_json_accepted e method path body w Hwire) as (h' & Hrun).
    destruct (resp_body (response e)) as [j|raw|raw]; cbn [decode_error] in Hx;
      [discriminate| |]; injection Hx as <-.
    all: erewrite bind_raise by exact Hrun; cbn [fst snd w_stdout w_sent].
    all: rewrite length_app; cbn [length]; repeat split; lia.
Qed.

(** What [bio] runs up to the reading of the response. *)
Lemma bio_run e text w :
  exists h' r,
    bio e text w
    = bind (json_loads (resp_body (response e)))
           (fun data =>
              bind (lift (py_get data "description" data))
                   (fun shown => print [Lit "✅ Bio: "; Fmt shown]))
           {| w_heap := h'; w_stdout := w_stdout w; w_sent := (w_sent w ++ [r])%list |}.
Proof.
  unfold bio. destruct w as [h out sent].
  erewrite bind_eq by (unfold new_dict; cbn [w_heap w_stdout w_sent]; reflexivity).
  set (l := fresh (dom h)).
  set (w1 := {| w_heap := <[l := [("description", text)]]> h;
                w_stdout := out; w_sent := sent |}).
  assert (Hx : extra_ok (Some l) (w_heap w1)).
  { cbn. rewrite lookup_insert_eq. eauto. }
  destruct (oauth_sign_run e "POST"
              "https://api.twitter.com/1.1/account/update_profile.json"
              (Some l) w1 Hx) as (h' & lo & Hrun & _).
  erewrite bind_eq by exact Hrun.
  erewrite bind_eq
    by (unfold conn_request; cbn [w_heap w_stdout w_sent]; reflexivity).
  eexists _, _. reflexivity.
Qed.

Lemma bio_stops e text w x :
  decode_error (resp_body (response e)) = Some x ->
  stops_unreported (bio e text) w None x.
Proof.
  intros Hx. unfold stops_unreported.
  destruct (bio_run e text w) as (h' & r & ->).
  destruct (resp_body (response e)) as [j|raw|raw]; cbn [decode_error] in Hx;
    [discriminate| |]; injection Hx as <-; cbn [json_loads].
  all: erewrite bind_raise by (unfold raise; reflexivity).
  all: cbn [fst snd w_stdout w_sent].
  all: rewrite length_app; cbn [length]; repeat split; lia.
Qed.

Lemma arity_range cmd n : arity cmd = Some n -> n = 1%nat \/ n = 2%nat.
Proof.
  unfold arity.
  repeat match goal with
         | |- context [if ?b then _ else _] => destruct b
         end; intros [= <-]; auto.
Qed.

Lemma main_cons e a0 cmd args w :
  main e (a0 :: cmd :: args) w = dispatch e (a0 :: cmd :: args) cmd w.
Proof. unfold main. cbn [length Nat.ltb Nat.leb]. now rewrite argv_bind. Qed.

Lemma stops_unreported_ext (m1 m2 : M unit) w r x :
  m1 w = m2 w -> stops_unreported m2 w r x -> stops_unreported m1 w r x.
Proof. unfold stops_unreported. now intros ->. Qed.

(** Reading one or two arguments that are there. *)
Ltac one_arg :=
  eapply stops_unreported_ext; [rewrite argv_bind; cbn [nth_error]; reflexivity|].
Ltac two_args :=
  eapply stops_unreported_ext;
  [rewrite argv_bind; cbn [nth_error]; rewrite argv_bind; cbn [nth_error];
   reflexivity|].

(** C6 as stated fails: on a body that is not JSON, [tweet] stops on an
    uncaught [JSONDecodeError] and prints nothing. *)
Lemma C6_counterexample :
  let e := pinned {| resp_status := 502;
                     resp_body := NotJson "<html>502 Bad Gateway</html>" |} in
  let run := main e ["twitter-api.py"; "tweet"; "hello"] world0 in
  fst run = inr JSONDecodeError /\ w_stdout (snd run) = [].
Proof. vm_compute. split; reflexivity. Qed.

(** C6 (amended). For every recognised command given its arguments and
    every response whose body cannot be decoded, the run stops on an
    uncaught exception and prints nothing, neither a failure message nor
    the raw payload.  It sends its one request and then stops on
    [JSONDecodeError] when the body is not JSON, on [UnicodeDecodeError]
    when the body is not UTF-8; except that [delete] and [dm-conv] with
    an id that cannot stand in a request line stop earlier, in
    [conn.request], on [InvalidURL] or [UnicodeEncodeError] with nothing
    sent. *)
Theorem C6_invalid_json_uncaught
    (e : Env) (argv : list string) (w : World) (cmd : string) (n : nat) (x : exn) :
  nth_error argv 1 = Some cmd ->
  arity cmd = Some n ->
  (2 + n <= length argv)%nat ->
  decode_error (resp_body (response e)) = Some x ->
  w_stdout (snd (main e argv w)) = w_stdout w
  /\ match refused cmd argv with
     | Some r =>
         fst (main e argv w) = inr r
         /\ w_sent (snd (main e argv w)) = w_sent w
     | None =>
         fst (main e argv w) = inr x
         /\ length (w_sent (snd (main e argv w))) = S (length (w_sent w))
     end.
Proof.
  intros Hcmd Har Hlen Hx.
  pose proof (arity_range cmd n Har) as Hn.
  destruct argv as [|a0 [|c [|a2 rest]]]; cbn [length] in Hlen; try lia.
  cbn [nth_error] in Hcmd. injection Hcmd as ->.
  change (stops_unreported (main e (a0 :: cmd :: a2 :: rest)) w
                           (refused cmd (a0 :: cmd :: a2 :: rest)) x).
  apply stops_unreported_ext with (dispatch e (a0 :: cmd :: a2 :: rest) cmd);
    [apply main_cons|].
  unfold dispatch, refused, request_line, arity in *.
  destruct (String.eqb cmd "tweet"); [one_arg; now apply api_command_stops|].
  destruct (String.eqb cmd "reply").
  { injection Har as <-. destruct rest as [|a3 rest]; cbn [length] in Hlen; [lia|].
    two_args. now apply api_command_stops. }
  destruct (String.eqb cmd "like"); [one_arg; now apply api_command_stops|].
  destruct (String.eqb cmd "retweet"); [one_arg; now apply api_command_stops|].
  destruct (String.eqb cmd "delete"); [one_arg; now apply api_command_stops|].
  destruct (String.eqb cmd "bio"); [one_arg; now apply bio_stops|].
  destruct (String.eqb cmd "dm").
  { injection Har as <-. destruct rest as [|a3 rest]; cbn [length] in Hlen; [lia|].
    two_args. now apply api_command_stops. }
  destruct (String.eqb cmd "dm-conv").
  { injection Har as <-. destruct rest as [|a3 rest]; cbn [length] in Hlen; [lia|].
    two_args. now apply api_command_stops. }
  discriminate.
Qed.

Lemma C6_invalid_json_uncaught_witness :
  let e := pinned {| resp_status := 200;
                     resp_body := NotUtf8 (String "255"%char "") |} in
  let run := main e ["twitter-api.py"; "dm-conv"; "a b"; "hi"] world0 in
  w_stdout (snd run) = [] /\ fst run = inr InvalidURL /\ w_sent (snd run) = [].
Proof.
  refine (C6_invalid_json_uncaught
            (pinned {| resp_status := 200;
                       resp_body := NotUtf8 (String "255"%char "") |})
            ["twitter-api.py"; "dm-conv"; "a b"; "hi"] world0 "dm-conv" 2
            UnicodeDecodeError _ _ _ _).
  - reflexivity.
  - reflexivity.
  - simpl. lia.
  - reflexivity.
Defined.

(** [bio] has one report, whatever the response holds: the success line,
    with the description when there is one and the whole payload when
    there is none. *)
Lemma bio_prints e text w d :
  resp_body (response e) = Json (JDict d) ->
  fst (bio e text w) = inl tt
  /\ w_stdout (snd (bio e text w))
     = (w_stdout w
        ++ [[Lit "✅ Bio: ";
             Fmt (match jdict_get "description" d with
                  | Some v => v
                  | None => JDict d
                  end)]])%list.
Proof.
  intros Hbody. destruct (bio_run e text w) as (h' & r & ->).
  rewrite Hbody. cbn [json_loads].
  erewrite bind_eq by (unfold ret; reflexivity).
  cbn [py_get lift].
  erewrite bind_eq by (unfold ret; reflexivity).
  unfold print. cbn [fst snd w_stdout]. split; reflexivity.
Qed.

(** C7. [bio] applies no success predicate: for a 401 response whose
    body is an error object without a description, it prints the success
    line with the raw payload in it, where [delete], given the same
    response, prints a failure line. *)
Theorem C7_bio_success_line_on_error :
  let data :=
    JDict [("errors",
            JList [JDict [("code", JInt 32);
                          ("message", JStr "Could not authenticate you.")]])] in
  let e := pinned {| resp_status := 401; resp_body := Json data |} in
  let run := main e ["twitter-api.py"; "bio"; "new bio"] world0 in
  fst run = inl tt
  /\ w_stdout (snd run) = [[Lit "✅ Bio: "; Fmt data]]
  /\ w_stdout (snd (main e ["twitter-api.py"; "delete"; "123"] world0))
     = [[Lit "❌ "; Fmt data]].
Proof. vm_compute. repeat split; reflexivity. Qed.

(** *** Decimal text of integers *)

Lemma uint_text_free (c : ascii) (d : Decimal.uint) :
  free_of c "0123456789" = true ->
  free_of c (NilEmpty.string_of_uint d) = true.
Proof.
  intros Hc. cbn [free_of] in Hc.
  repeat (apply andb_true_iff in Hc as [? Hc]).
  induction d; cbn [NilEmpty.string_of_uint free_of]; try reflexivity;
    apply andb_true_iff; split; assumption.
Qed.

Lemma str_of_int_free (c : ascii) (n : Z) :
  free_of c "-0123456789" = true -> free_of c (str_of_int n) = true.
Proof.
  intros Hc. cbn [free_of] in Hc. apply andb_true_iff in Hc as [Hm Hc].
  pose proof (uint_text_free c) as Hu. specialize (fun d => Hu d Hc).
  assert (Hz : forall d, free_of c (NilZero.string_of_uint d) = true).
  { intros d. destruct d; try apply Hu.
    cbn [NilZero.string_of_uint]. apply (Hu (Decimal.D0 Decimal.Nil)). }
  unfold str_of_int, NilZero.string_of_int.
  destruct (Z.to_int n); [apply Hz|].
  cbn [free_of]. rewrite Hm. apply Hz.
Qed.

Lemma to_int_not_nil (n : Z) :
  Z.to_int n <> Decimal.Pos Decimal.Nil /\ Z.to_int n <> Decimal.Neg Decimal.Nil.
Proof.
  destruct n as [|p|p]; cbn; split; try discriminate;
    intros [= H]; now apply (DecimalPos.Unsigned.to_uint_nonnil p).
Qed.

Lemma str_of_int_inj (n m : Z) : str_of_int n = str_of_int m -> n = m.
Proof.
  unfold str_of_int. intros H.
  apply (f_equal NilZero.int_of_string) in H.
  destruct (to_int_not_nil n), (to_int_not_nil m).
  rewrite !NilZero.isi in H by assumption.
  injection H as H. apply (f_equal Z.of_int) in H.
  now rewrite !DecimalZ.of_to in H.
Qed.

(** The generic failure line of [dm] does not read like the first line
    of the permission report, however values are formatted. *)
Lemma dm_first_lines_differ (fmt : json -> string) (s : Z) (d d' : json) :
  s <> 403 ->
  render fmt (hd [] (dm_generic_failure s d))
  <> render fmt (hd [] (dm_permission_denied d')).
Proof.
  intros Hs H. apply Hs.
  unfold render in H. cbn [hd dm_generic_failure dm_permission_denied map String.concat] in H.
  change ("❌ DM failed (" ++ str_of_int s ++ String ")" (": " ++ fmt d)
          = "❌ DM failed (" ++ "403" ++ String ")"
              ": No permission. Need elevated API access or user doesn't allow DMs.")
    in H.
  apply append_inv_head in H. apply cut_at in H.
  - now apply str_of_int_inj.
  - now apply str_of_int_free.
  - reflexivity.
Qed.

(** *** Computations that only print *)

Lemma appends_ret {A} (a : A) : appends_stdout (ret a).
Proof. intros w. exists []. cbn. now rewrite app_nil_r. Qed.

Lemma appends_lift {A} (r : A + exn) : appends_stdout (lift r).
Proof. intros w. exists []. destruct r; cbn; now rewrite app_nil_r. Qed.

Lemma appends_print l : appends_stdout (print l).
Proof. intros w. exists [l]. reflexivity. Qed.

Lemma appends_bind {A B} (m : M A) (k : A -> M B) :
  appends_stdout m -> (forall a, appends_stdout (k a)) -> appends_stdout (bind m k).
Proof.
  intros Hm Hk w. unfold bind. destruct (Hm w) as [ls Hls].
  destruct (m w) as [[a|x] w1]; cbn [snd] in *.
  - destruct (Hk a w1) as [ls' Hls']. exists (ls ++ ls')%list.
    now rewrite Hls', Hls, app_assoc.
  - now exists ls.
Qed.

(** [dm] on a response that is decoded. *)
Lemma dm_run e recipient_id text w data :
  resp_body (response e) = Json data ->
  exists h' r,
    dm e recipient_id text w
    = bind (if resp_status (response e) =? 201 then ret true
            else lift (py_in "data" data))
           (fun ok : bool =>
              if ok then
                print [Lit "✅ DM sent to "; Lit recipient_id] ;;;
                has <- lift (py_in "data" data) ;;
                if has : bool then
                  d <- lift (py_getitem data "data") ;;
                  c <- lift (py_get d "dm_conversation_id" (JStr "unknown")) ;;
                  print [Lit "   Conversation: "; Fmt c]
                else ret tt
              else if resp_status (response e) =? 403 then
                print [Lit "❌ DM failed (403): No permission. Need elevated API access or user doesn't allow DMs."] ;;;
                print [Lit "   Details: "; Fmt data]
              else
                print [Lit "❌ DM failed ("; Lit (str_of_int (resp_status (response e)));
                       Lit "): "; Fmt data])
           {| w_heap := h'; w_stdout := w_stdout w; w_sent := (w_sent w ++ [r])%list |}.
Proof.
  intros Hbody. unfold dm.
  destruct (api_call_json_accepted e "POST" "/2/dm_conversations"
              (Some (JDict [("text", JStr text);
                            ("participant_ids", JList [JStr recipient_id])]))
              w eq_refl) as (h' & Hrun).
  rewrite Hbody in Hrun.
  erewrite bind_eq by exact Hrun. cbn beta iota.
  eexists _, _. reflexivity.
Qed.

(** [dm] on a response that cannot be decoded. *)
Lemma dm_stops e recipient_id text w x :
  decode_error (resp_body (response e)) = Some x ->
  outcome (dm e recipient_id text) w (inr x) [].
Proof.
  intros Hx.
  destruct (api_command_stops e "POST" "/2/dm_conversations"
              (Some (JDict [("text", JStr text);
                            ("participant_ids", JList [JStr recipient_id])]))
              (fun sd : Z * json =>
                 let '(status, data) := sd in
                 ok <- (if status =? 201 then ret true else lift (py_in "data" data)) ;;
                 if ok : bool then
                   print [Lit "✅ DM sent to "; Lit recipient_id] ;;;
                   has <- lift (py_in "data" data) ;;
                   if has : bool then
                     d <- lift (py_getitem data "data") ;;
                     c <- lift (py_get d "dm_conversation_id" (JStr "unknown")) ;;
                     print [Lit "   Conversation: "; Fmt c]
                   else ret tt
                 else if status =? 403 then
                   print [Lit "❌ DM failed (403): No permission. Need elevated API access or user doesn't allow DMs."] ;;;
                   print [Lit "   Details: "; Fmt data]
                 else
                   print [Lit "❌ DM failed ("; Lit (str_of_int status); Lit "): "; Fmt data])
              w x Hx) as (Hout & Hres & _).
  split; [exact Hres|]. rewrite app_nil_r. exact Hout.
Qed.

(** What [dm] prints when neither success condition holds. *)
Lemma dm_failure_run e recipient_id text w data :
  resp_body (response e) = Json data ->
  py_in "data" data = inl false ->
  resp_status (response e) <> 201 ->
  fst (dm e recipient_id text w) = inl tt
  /\ w_stdout (snd (dm e recipient_id text w))
     = (w_stdout w
        ++ (if resp_status (response e) =? 403
            then dm_permission_denied data
            else dm_generic_failure (resp_status (response e)) data))%list.
Proof.
  intros Hbody Hin Hs.
  destruct (dm_run e recipient_id text w data Hbody) as (h' & r & ->).
  apply Z.eqb_neq in Hs. rewrite Hs, Hin. cbn [lift].
  erewrite bind_eq by (unfold ret; reflexivity).
  destruct (resp_status (response e) =? 403).
  - erewrite bind_eq by (unfold print; cbn [w_heap w_stdout w_sent]; reflexivity).
    unfold print, dm_permission_denied. cbn [fst snd w_stdout].
    rewrite <- app_assoc. split; reflexivity.
  - unfold print, dm_generic_failure. cbn [fst snd w_stdout]. split; reflexivity.
Qed.

(** C8 as stated fails: a 403 whose body is an error page, or the JSON
    value [null], satisfies neither success condition, and [dm] prints
    no permission message for it: it stops on an uncaught exception,
    at line 46 or at line 91, and prints nothing. *)
Lemma C8_counterexample :
  let page := pinned {| resp_status := 403;
                        resp_body := NotJson "<html>403 Forbidden</html>" |} in
  let null := pinned {| resp_status := 403; resp_body := Json JNull |} in
  let run e := main e ["twitter-api.py"; "dm"; "42"; "hi"] world0 in
  (fst (run page) = inr JSONDecodeError /\ w_stdout (snd (run page)) = [])
  /\ (fst (run null) = inr TypeError /\ w_stdout (snd (run null)) = []).
Proof. vm_compute. repeat split; reflexivity. Qed.

(** C8 (amended). When the response to [dm] has status 403 and its body
    is a JSON value on which ["data" in data] is false (an object
    without that key, a list or a string without it), [dm] prints the
    permission report: a line that names the missing permission and a
    line with the details.  A 403 whose body is not such a value gets no
    permission report: when the test is true [dm] reports the message
    as sent; when the test raises (the body is null, a number or a
    boolean) or the body cannot be decoded, [dm] stops on the uncaught
    exception and prints nothing.  For every other failing status [dm]
    prints the one generic line, which is a different report and reads
    differently from its first line on, however values are formatted. *)
Theorem C8_dm_permission_denied
    (e : Env) (recipient_id text : string) (w : World) :
  resp_status (response e) = 403 ->
  match resp_body (response e) with
  | Json data =>
      match py_in "data" data with
      | inl false =>
          outcome (dm e recipient_id text) w (inl tt) (dm_permission_denied data)
      | inl true =>
          exists r ls,
            outcome (dm e recipient_id text) w r
                    ([Lit "✅ DM sent to "; Lit recipient_id] :: ls)
      | inr x => outcome (dm e recipient_id text) w (inr x) []
      end
  | NotJson _ => outcome (dm e recipient_id text) w (inr JSONDecodeError) []
  | NotUtf8 _ => outcome (dm e recipient_id text) w (inr UnicodeDecodeError) []
  end
  /\ forall (e' : Env) (r' t' : string) (data' : json) (w' : World),
       resp_status (response e') <> 201 ->
       resp_status (response e') <> 403 ->
       resp_body (response e') = Json data' ->
       py_in "data" data' = inl false ->
       outcome (dm e' r' t') w' (inl tt)
               (dm_generic_failure (resp_status (response e')) data')
       /\ forall data,
            dm_generic_failure (resp_status (response e')) data'
            <> dm_permission_denied data
            /\ forall fmt,
                 render fmt (hd [] (dm_generic_failure (resp_status (response e')) data'))
                 <> render fmt (hd [] (dm_permission_denied data)).
Proof.
  intros Hs. split.
  - destruct (resp_body (response e)) as [data|raw|raw] eqn:Hbody.
    + destruct (py_in "data" data) as [[|]|x] eqn:Hin.
      * unfold outcome.
        destruct (dm_run e recipient_id text w data Hbody) as (h' & r & ->).
        rewrite Hs, Hin. cbn [Z.eqb Pos.eqb lift].
        erewrite bind_eq by (unfold ret; reflexivity). cbn beta iota.
        erewrite bind_eq
          by (unfold print; cbn [w_heap w_stdout w_sent]; reflexivity).
        erewrite bind_eq by (unfold ret; reflexivity). cbn beta iota.
        match goal with
        | |- context [fst (?k ?w1)] =>
            assert (Hk : appends_stdout k)
              by (apply appends_bind; [apply appends_lift|intros d];
                  apply appends_bind; [apply appends_lift|intros c];
                  apply appends_print);
            destruct (Hk w1) as [ls Hls]; exists (fst (k w1)), ls;
            split; [reflexivity|]; rewrite Hls
        end.
        cbn [w_stdout]. now rewrite <- app_assoc.
      * destruct (dm_failure_run e recipient_id text w data Hbody Hin) as [R1 R2].
        { rewrite Hs. discriminate. }
        rewrite Hs in R2. cbn [Z.eqb Pos.eqb] in R2. split; assumption.
      * unfold outcome.
        destruct (dm_run e recipient_id text w data Hbody) as (h' & r & ->).
        rewrite Hs, Hin. cbn [Z.eqb Pos.eqb lift].
        erewrite bind_raise by (unfold raise; reflexivity).
        split; [reflexivity|]. cbn [snd w_stdout]. now rewrite app_nil_r.
    + apply dm_stops. now rewrite Hbody.
    + apply dm_stops. now rewrite Hbody.
  - intros e' r' t' data' w' H201 H403 Hbody' Hin'.
    destruct (dm_failure_run e' r' t' w' data' Hbody' Hin' H201) as [R1 R2].
    apply Z.eqb_neq in H403 as E. rewrite E in R2.
    split; [split; assumption|].
    intros data. split; [discriminate|].
    intros fmt. now apply dm_first_lines_differ.
Qed.

Lemma C8_dm_permission_denied_witness :
  outcome (dm (pinned {| resp_status := 403;
                         resp_body := Json (JDict [("detail", JStr "Forbidden")]) |})
              "42" "hi")
          world0 (inl tt)
          (dm_permission_denied (JDict [("detail", JStr "Forbidden")])).
Proof.
  refine (proj1 (C8_dm_permission_denied
            (pinned {| resp_status := 403;
                       resp_body := Json (JDict [("detail", JStr "Forbidden")]) |})
            "42" "hi" world0 _)).
  reflexivity.
Defined.

(** *** Computations that never exit *)

Lemma never_exits_ret {A} (a : A) : never_exits (ret a).
Proof. intros w c. discriminate. Qed.

Lemma never_exits_raise {A} (x : exn) :
  (forall c, x <> SystemExit c) -> never_exits (@raise A x).
Proof. intros H w c [= E]. now apply (H c). Qed.

Lemma never_exits_lift {A} (r : A + exn) :
  (forall c, r <> inr (SystemExit c)) -> never_exits (lift r).
Proof. intros H w c. destruct r as [a|x]; [discriminate|]. intros [= ->]. now apply (H c). Qed.

Lemma never_exits_print l : never_exits (print l).
Proof. intros w c. discriminate. Qed.

Lemma wire_error_no_exit method path c :
  wire_error method path <> Some (SystemExit c).
Proof.
  unfold wire_error.
  repeat match goal with
         | |- context [if ?b then _ else _] => destruct b
         end; discriminate.
Qed.

Lemma never_exits_conn_request r : never_exits (conn_request r).
Proof.
  intros w c. unfold conn_request.
  destruct (wire_error (req_method r) (req_path r)) as [x|] eqn:Hwire.
  - cbn [fst]. intros [= ->]. now apply wire_error_no_exit in Hwire.
  - discriminate.
Qed.

Lemma never_exits_new_dict d : never_exits (new_dict d).
Proof. intros w c. discriminate. Qed.

Lemma never_exits_read_dict l : never_exits (read_dict l).
Proof. intros w c. discriminate. Qed.

Lemma never_exits_setitem l k v : never_exits (setitem l k v).
Proof. intros w c. discriminate. Qed.

Lemma never_exits_bind {A B} (m : M A) (k : A -> M B) :
  never_exits m -> (forall a, never_exits (k a)) -> never_exits (bind m k).
Proof.
  intros Hm Hk w c. unfold bind. specialize (Hm w c).
  destruct (m w) as [[a|x] w1]; cbn [fst] in *.
  - apply Hk.
  - intros [= ->]. now apply Hm.
Qed.

Lemma py_in_no_exit k j c : py_in k j <> inr (SystemExit c).
Proof. destruct j; discriminate. Qed.

Lemma py_getitem_no_exit j k c : py_getitem j k <> inr (SystemExit c).
Proof. destruct j; try discriminate. cbn. destruct (jdict_get k d); discriminate. Qed.

Lemma py_get_no_exit j k d c : py_get j k d <> inr (SystemExit c).
Proof. destruct j; discriminate. Qed.

Lemma never_exits_argv argv i : never_exits (argv_at argv i).
Proof.
  unfold argv_at. destruct (nth_error argv i).
  - apply never_exits_ret.
  - apply never_exits_raise. discriminate.
Qed.

Ltac nex :=
  repeat first
    [ apply never_exits_ret | apply never_exits_print
    | apply never_exits_conn_request
    | apply never_exits_new_dict | apply never_exits_read_dict
    | apply never_exits_setitem | apply never_exits_argv
    | apply never_exits_raise; discriminate
    | apply never_exits_lift; intros ?;
      first [apply py_in_no_exit | apply py_getitem_no_exit | apply py_get_no_exit]
    | apply never_exits_bind; [|intros]
    | match goal with
      | |- never_exits (if ?b then _ else _) => destruct b
      | |- never_exits (match ?x with _ => _ end) => destruct x
      end ].

Lemma never_exits_oauth_sign e method url x : never_exits (oauth_sign e method url x).
Proof. unfold oauth_sign, or_empty. nex. Qed.

Lemma never_exits_api_call e method path body :
  never_exits (api_call_json e method path body).
Proof.
  unfold api_call_json, api_call, json_loads.
  apply never_exits_bind; [apply never_exits_oauth_sign|intros].
  nex.
Qed.

Lemma never_exits_dispatch e argv cmd : never_exits (dispatch e argv cmd).
Proof.
  unfold dispatch.
  repeat match goal with
         | |- never_exits (if ?b then _ else _) => destruct b
         end.
  all: repeat (apply never_exits_bind; [apply never_exits_argv|intros]).
  all: unfold tweet, like, retweet, delete, bio, dm, dm_to_conversation,
         report_flag, json_loads.
  all: try (apply never_exits_bind; [apply never_exits_api_call|intros]).
  all: try (apply never_exits_bind; [apply never_exits_new_dict|intros];
            apply never_exits_bind; [apply never_exits_oauth_sign|intros]).
  all: nex.
Qed.

(** C10. A recognised command given fewer arguments than its branch
    reads makes the dispatcher stop on an uncaught [IndexError], before
    anything is printed or sent.  The usage text with exit status 1 is what
    the dispatcher does when, and only when, no command is given. *)
Theorem C10_missing_argument_raises
    (e : Env) (argv : list string) (w : World) (cmd : string) (n : nat) :
  nth_error argv 1 = Some cmd ->
  arity cmd = Some n ->
  (length argv < 2 + n)%nat ->
  main e argv w = (inr IndexError, w)
  /\ (forall e' argv' w',
        fst (main e' argv' w') = inr (SystemExit 1) <-> (length argv' < 2)%nat)
  /\ (forall e' argv' w',
        (length argv' < 2)%nat ->
        w_stdout (snd (main e' argv' w')) = (w_stdout w' ++ [[Lit usage]])%list).
Proof.
  intros Hcmd Har Hlen. split; [|split].
  - pose proof (arity_range cmd n Har) as Hn.
    destruct argv as [|a0 [|c args]]; try discriminate.
    cbn [nth_error] in Hcmd. injection Hcmd as ->.
    rewrite main_cons. unfold dispatch, arity in *. cbn [length] in Hlen.
    repeat match goal with
           | H : (if ?b then _ else _) = Some n |- _ => destruct b
           end; try discriminate; injection Har as <-.
    all: destruct args as [|a2 [|a3 rest]]; cbn [length] in Hlen; try lia.
    all: rewrite argv_bind; cbn [nth_error]; try reflexivity.
    all: rewrite argv_bind; cbn [nth_error]; reflexivity.
  - intros e' argv' w'. split.
    + intros H. destruct (Nat.ltb_spec (length argv') 2) as [Hl|Hl]; [exact Hl|].
      exfalso. destruct argv' as [|a0 [|c args]]; cbn [length] in Hl; try lia.
      rewrite main_cons in H. now apply never_exits_dispatch in H.
    + intros Hl. unfold main.
      apply Nat.ltb_lt in Hl. rewrite Hl. reflexivity.
  - intros e' argv' w' Hl. unfold main.
    apply Nat.ltb_lt in Hl. rewrite Hl. reflexivity.
Qed.

Lemma C10_missing_argument_raises_witness :
  main (pinned {| resp_status := 200; resp_body := Json JNull |})
       ["twitter-api.py"; "dm"; "42"] world0
  = (inr IndexError, world0).
Proof.
  refine (proj1 (C10_missing_argument_raises
            (pinned {| resp_status := 200; resp_body := Json JNull |})
            ["twitter-api.py"; "dm"; "42"] world0 "dm" 2 _ _ _)).
  - reflexivity.
  - reflexivity.
  - simpl. lia.
Defined.

End Failures.

(** * Further properties of the signer *)

Section SignerMore.

Lemma unreserved_hex (a : ascii) :
  unreserved (hex_upper (N_of_ascii a / 16)) = true
  /\ unreserved (hex_upper (N_of_ascii a mod 16)) = true.
Proof.
  destruct a as [[] [] [] [] [] [] [] []]; vm_compute; split; reflexivity.
Qed.

(** [quote] emits unreserved characters and [%], nothing else. *)
Lemma quote_free_of (c : ascii) (s : string) :
  unreserved c = false -> Ascii.eqb c "%" = false ->
  free_of c (quote s) = true.
Proof.
  intros Hc Hp.
  assert (Hu : forall x, unreserved x = true -> Ascii.eqb x c = false).
  { intros x Hx. destruct (Ascii.eqb_spec x c) as [->|]; congruence. }
  induction s as [|a s IH]; [reflexivity|].
  cbn [quote]. destruct (unreserved a) eqn:Ha; cbn [free_of].
  - now rewrite (Hu a Ha), IH.
  - destruct (unreserved_hex a) as [H1 H2].
    rewrite (Hu _ H1), (Hu _ H2), IH, Ascii.eqb_sym, Hp. reflexivity.
Qed.

Lemma cut_at_both (c : ascii) (a b r1 r2 : string) :
  free_of c a = true -> free_of c b = true ->
  a ++ String c r1 = b ++ String c r2 -> a = b /\ r1 = r2.
Proof.
  intros Ha Hb H. assert (E : a = b) by now apply (cut_at c a b r1 r2).
  subst b. apply append_inv_head in H. injection H as H. now split.
Qed.

Lemma append_empty_r (s : string) : s ++ "" = s.
Proof.
  induction s as [|x s IH]; [reflexivity|].
  change (String x (s ++ "") = String x s). now f_equal.
Qed.

Lemma header_fields_inj (d1 d2 : dict) :
  keys d1 = keys d2 ->
  String.concat ", " (map header_field d1) = String.concat ", " (map header_field d2) ->
  d1 = d2.
Proof.
  revert d2. induction d1 as [|[k v1] r1 IH]; intros [|[k' v2] r2] Hk H;
    try discriminate; [reflexivity|].
  unfold keys in Hk. cbn [map fst] in Hk. injection Hk as <- Hk.
  assert (Hcut : forall t1 t2,
             header_field (k, v1) ++ t1 = header_field (k, v2) ++ t2 ->
             v1 = v2 /\ t1 = t2).
  { intros t1 t2 E. unfold header_field in E. cbn [fst snd] in E.
    rewrite !append_assoc in E. apply append_inv_head in E.
    change (String "=" (String "034" (quote v1 ++ String "034" t1))
            = String "=" (String "034" (quote v2 ++ String "034" t2))) in E.
    injection E as E.
    apply cut_at_both in E as [E1 E2]; try apply quote_no_dq.
    split; [now apply quote_inj|exact E2]. }
  cbn [map String.concat] in H.
  destruct r1 as [|a1 r1]; destruct r2 as [|a2 r2]; try discriminate.
  - cbn [map] in H.
    assert (E : header_field (k, v1) ++ "" = header_field (k, v2) ++ "")
      by (rewrite !append_empty_r; exact H).
    apply Hcut in E as [-> _]. reflexivity.
  - cbn [map] in H. cbn [map] in IH.
    apply Hcut in H as [-> H]. f_equal.
    apply IH; [exact Hk|].
    change (", " ++ String.concat ", " (map header_field (a1 :: r1))
            = ", " ++ String.concat ", " (map header_field (a2 :: r2))) in H.
    now apply append_inv_head in H.
Qed.

(** X1. The header is unambiguous: two dicts with the same keys that
    give the same header hold the same values.  Values are
    percent-encoded, so a double quote, a comma or a space inside a value
    cannot be taken for the end of a field. *)
Theorem X1_header_injective (d1 d2 : dict) :
  keys d1 = keys d2 -> header d1 = header d2 -> d1 = d2.
Proof.
  intros Hk H. unfold header, join in H.
  apply append_inv_head in H.
  apply header_fields_inj; [exact Hk|exact H].
Qed.

Lemma X1_header_injective_witness :
  [("oauth_nonce", "a b"); ("oauth_version", "1.0")]
  = [("oauth_nonce", "a b"); ("oauth_version", "1.0")].
Proof.
  apply (X1_header_injective
           [("oauth_nonce", "a b"); ("oauth_version", "1.0")]
           [("oauth_nonce", "a b"); ("oauth_version", "1.0")]).
  - reflexivity.
  - reflexivity.
Defined.

(** X2. The signature base string is unambiguous: for methods without
    [&], two requests with the same base string have the same method, the
    same url and the same parameter string.  The url and the parameter
    string are percent-encoded, so an [&] inside them cannot be taken for
    a separator. *)
Theorem X2_base_string_injective (m1 m2 u1 u2 p1 p2 : string) :
  free_of "&" m1 = true ->
  free_of "&" m2 = true ->
  base_string m1 u1 p1 = base_string m2 u2 p2 ->
  m1 = m2 /\ u1 = u2 /\ p1 = p2.
Proof.
  intros H1 H2 H. unfold base_string in H.
  change (m1 ++ String "&" (quote u1 ++ String "&" (quote p1))
          = m2 ++ String "&" (quote u2 ++ String "&" (quote p2))) in H.
  apply cut_at_both in H as [-> H]; try assumption.
  apply cut_at_both in H as [Hu Hp]; try (apply quote_free_of; reflexivity).
  split; [reflexivity|]. split; now apply quote_inj.
Qed.

Lemma X2_base_string_injective_witness :
  "POST" = "POST" /\ "https://a/b?c=d&e" = "https://a/b?c=d&e" /\ "x=1&y=2" = "x=1&y=2".
Proof.
  apply (X2_base_string_injective "POST" "POST" "https://a/b?c=d&e"
           "https://a/b?c=d&e" "x=1&y=2" "x=1&y=2"); reflexivity.
Defined.

Lemma plain_keys_set k v d :
  quote k = k -> plain_keys d -> plain_keys (dict_set k v d).
Proof.
  intros Hk. unfold plain_keys.
  induction d as [|[k0 v0] d IH]; intros Hd; cbn [dict_set].
  - repeat constructor. exact Hk.
  - apply Forall_cons in Hd as [H0 Hd].
    destruct (String.eqb k0 k); constructor; auto.
Qed.

Lemma plain_keys_merge a b :
  plain_keys a -> plain_keys b -> plain_keys (dict_merge a b).
Proof.
  unfold dict_merge. revert a.
  induction b as [|[k v] b IH]; intros a Ha Hb; cbn [fold_left]; [exact Ha|].
  apply Forall_cons in Hb as [Hk Hb]. apply IH; [|exact Hb].
  now apply plain_keys_set.
Qed.

(** X3. When no key of [extra_params] needs escaping, the parameter
    string the signer builds is the one OAuth asks for: the entries,
    percent-encoded, in the order of their encoded keys.  This covers
    every call the script makes ({description: text} and no extra
    parameters). *)
Theorem X3_param_string_by_encoded_key (ts nonce : string) (extra : dict) :
  plain_keys extra ->
  let all_p := dict_merge (oauth_meta ts nonce) extra in
  param_string all_p = spec_param_string all_p.
Proof.
  intros He all_p. apply param_string_agrees.
  - apply NoDup_keys_merge, NoDup_keys_meta.
  - apply plain_keys_merge; [|exact He].
    unfold plain_keys, oauth_meta. repeat constructor.
Qed.

Lemma X3_param_string_by_encoded_key_witness :
  let all_p := dict_merge (oauth_meta "1700000000" reference_nonce)
                          [("description", "new bio / 2")] in
  param_string all_p = spec_param_string all_p.
Proof.
  apply (X3_param_string_by_encoded_key "1700000000" reference_nonce
           [("description", "new bio / 2")]).
  unfold plain_keys. repeat constructor.
Defined.

(** X4. Extra parameters reach the signature and nothing else.  The
    signed parameter set is the metadata overridden by [extra_params]:
    an extra parameter wins over a metadata field of the same name
    (say [oauth_nonce]), the other metadata fields stay.  The header is
    built from the metadata and the signature alone, so such an
    override is signed but not sent. *)
Theorem X4_extra_params_override
    (e : Env) (method url : string) (l : loc) (d : dict) (w : World) :
  w_heap w !! l = Some d ->
  NoDup (keys d) ->
  let ts := str_of_int (clock e) in
  let nonce := token_hex e in
  let all_p := dict_merge (oauth_meta ts nonce) d in
  fst (oauth_sign e method url (Some l) w)
  = inl (header (oauth_meta ts nonce
                 ++ [("oauth_signature",
                      sign signing_key
                           (base_string method url (param_string all_p)))])%list)
  /\ (forall k v, dict_get k d = Some v -> dict_get k all_p = Some v)
  /\ (forall k, dict_get k d = None ->
                dict_get k all_p = dict_get k (oauth_meta ts nonce)).
Proof.
  intros Hl Hd ts nonce all_p.
  assert (Hx : extra_ok (Some l) (w_heap w)) by (cbn; eauto).
  destruct (oauth_sign_run e method url (Some l) w Hx) as (h' & lo & -> & _).
  cbn [fst extra_dict]. rewrite Hl. cbn [default].
  rewrite signed_fields_eq. split; [reflexivity|]. split.
  - intros k v Hk. unfold all_p. rewrite dict_get_merge by exact Hd.
    now rewrite Hk.
  - intros k Hk. unfold all_p. rewrite dict_get_merge by exact Hd.
    now rewrite Hk.
Qed.

Lemma X4_extra_params_override_witness :
  dict_get "oauth_nonce"
           (dict_merge (oauth_meta "1700000000" reference_nonce)
                       [("oauth_nonce", "mine"); ("description", "x")])
  = Some "mine".
Proof.
  refine (proj1 (proj2 (X4_extra_params_override
            (pinned {| resp_status := 200; resp_body := Json JNull |})
            "POST" reference_url 1%positive
            [("oauth_nonce", "mine"); ("description", "x")]
            {| w_heap := {[ 1%positive := [("oauth_nonce", "mine"); ("description", "x")] ]};
               w_stdout := []; w_sent := [] |} _ _)) "oauth_nonce" "mine" _).
  - vm_compute. reflexivity.
  - apply NoDup_ListNoDup. repeat constructor; simpl; intuition discriminate.
  - reflexivity.
Defined.

(** X5. An empty dict is as good as no dict: [extra_params or {}] takes
    a new [{}] for both, so signing with an empty [extra_params] returns
    the header signing with [None] returns, and the empty dict passed in
    stays empty. *)
Theorem X5_empty_extra_params_as_none
    (e : Env) (method url : string) (l : loc) (w1 w2 : World) :
  w_heap w1 !! l = Some [] ->
  fst (oauth_sign e method url (Some l) w1) = fst (oauth_sign e method url None w2)
  /\ w_heap (snd (oauth_sign e method url (Some l) w1)) !! l = Some [].
Proof.
  intros Hl.
  assert (Hx : extra_ok (Some l) (w_heap w1)) by (cbn; eauto).
  destruct (oauth_sign_run e method url (Some l) w1 Hx) as (h1 & l1 & -> & F & _).
  destruct (oauth_sign_run e method url None w2 I) as (h2 & l2 & -> & _).
  cbn [fst snd w_heap extra_dict]. rewrite Hl. cbn [default].
  split; [reflexivity|]. now apply F.
Qed.

Lemma X5_empty_extra_params_as_none_witness :
  fst (oauth_sign (pinned {| resp_status := 200; resp_body := Json JNull |})
         "POST" reference_url (Some 1%positive)
         {| w_heap := {[ 1%positive := [] ]}; w_stdout := []; w_sent := [] |})
  = fst (oauth_sign (pinned {| resp_status := 200; resp_body := Json JNull |})
           "POST" reference_url None world0).
Proof.
  refine (proj1 (X5_empty_extra_params_as_none
            (pinned {| resp_status := 200; resp_body := Json JNull |})
            "POST" reference_url 1%positive
            {| w_heap := {[ 1%positive := [] ]}; w_stdout := []; w_sent := [] |}
            world0 _)).
  vm_compute. reflexivity.
Defined.

(** X6. The signer is a computation on memory only: it returns a header
    and raises nothing, prints nothing and sends nothing, for every
    method and url, also the empty ones. *)
Theorem X6_signer_no_io
    (e : Env) (method url : string) (x : option loc) (w : World) :
  extra_ok x (w_heap w) ->
  (exists hdr, fst (oauth_sign e method url x w) = inl hdr
               /\ String.prefix "OAuth oauth_consumer_key=" hdr = true)
  /\ w_stdout (snd (oauth_sign e method url x w)) = w_stdout w
  /\ w_sent (snd (oauth_sign e method url x w)) = w_sent w.
Proof.
  intros Hx.
  destruct (oauth_sign_run e method url x w Hx) as (h' & lo & -> & _).
  cbn [fst snd w_stdout w_sent]. split; [|split; reflexivity].
  eexists. split; [reflexivity|].
  rewrite signed_fields_eq, header_around_nonce. reflexivity.
Qed.

Lemma X6_signer_no_io_witness :
  w_sent (snd (oauth_sign (pinned {| resp_status := 200; resp_body := Json JNull |})
                          "" "" None world0))
  = w_sent world0.
Proof.
  refine (proj2 (proj2 (X6_signer_no_io
            (pinned {| resp_status := 200; resp_body := Json JNull |})
            "" "" None world0 _))).
  exact I.
Defined.

End SignerMore.

(** * Further properties of the commands *)

Section CommandsMore.

(** A command built on [api_call], once the request line is accepted and
    the response has been decoded: the handler runs on the status and
    the value, in a world that differs from the first one by the request
    sent and the signer's dicts. *)
Lemma api_bind_json e method path body (k : Z * json -> M unit) w j :
  wire_error method path = None ->
  resp_body (response e) = Json j ->
  exists w1,
    bind (api_call_json e method path body) k w = k (resp_status (response e), j) w1
    /\ w_stdout w1 = w_stdout w
    /\ w_sent w1
       = (w_sent w ++ [api_request e method path body "application/json"
                                   "api.twitter.com" []])%list.
Proof.
  intros Hwire Hj.
  destruct (api_call_json_accepted e method path body w Hwire) as (h' & Hrun).
  rewrite Hj in Hrun. eexists. split; [now erewrite bind_eq by exact Hrun|].
  split; reflexivity.
Qed.

(** A command built on [api_call], when [conn.request] refuses the
    request line: the handler does not run. *)
Lemma api_bind_refused e method path body (k : Z * json -> M unit) w x :
  wire_error method path = Some x ->
  outcome (bind (api_call_json e method path body) k) w (inr x) [].
Proof.
  intros Hwire. unfold outcome.
  destruct (api_call_json_refused e method path body w x Hwire) as (h' & Hrun).
  erewrite bind_raise by exact Hrun. cbn [fst snd w_stdout].
  split; [reflexivity|]. now rewrite app_nil_r.
Qed.

Lemma py_in_dict_some k d v : jdict_get k d = Some v -> py_in k (JDict d) = inl true.
Proof. intros H. cbn [py_in]. rewrite bool_decide_eq_true_2; [reflexivity|]. rewrite H. eauto. Qed.

Lemma py_in_dict_none k d : jdict_get k d = None -> py_in k (JDict d) = inl false.
Proof.
  intros H. cbn [py_in]. rewrite bool_decide_eq_false_2; [reflexivity|].
  rewrite H. intros [? ?]. discriminate.
Qed.

(** Running a handler made of [lift], [print], [ret] and [raise]. *)
Ltac handler :=
  unfold bind, lift, ret, raise, print;
  cbn [fst snd w_stdout w_heap w_sent py_getitem py_get].

Ltac finish Hout :=
  split; [reflexivity|]; cbn [fst snd w_stdout]; rewrite ?Hout, ?app_nil_r;
  reflexivity.

(** X7. [tweet] on a response that is a JSON object: without a [data]
    member it prints the failure line with the payload; with a [data]
    object that has an [id] it prints the status url with that id; a
    [data] object without [id] stops the run on an uncaught [KeyError],
    and a [data] member that is not an object on a [TypeError], with
    nothing printed.  The HTTP status plays no part. *)
Theorem X7_tweet_object_response
    (e : Env) (text : string) (reply_to : option string) (w : World)
    (d : list (string * json)) :
  resp_body (response e) = Json (JDict d) ->
  match jdict_get "data" d with
  | None =>
      outcome (tweet e text reply_to) w (inl tt) [[Lit "❌ "; Fmt (JDict d)]]
  | Some (JDict dd) =>
      match jdict_get "id" dd with
      | Some tid =>
          outcome (tweet e text reply_to) w (inl tt)
                  [[Lit "✅ https://x.com/AxiomBot/status/"; Fmt tid]]
      | None => outcome (tweet e text reply_to) w (inr KeyError) []
      end
  | Some _ => outcome (tweet e text reply_to) w (inr TypeError) []
  end.
Proof.
  intros Hj. unfold outcome, tweet.
  match goal with
  | |- context [bind (api_call_json e ?m ?p ?b) ?k w] =>
      destruct (api_bind_json e m p b k w (JDict d) eq_refl Hj) as (w1 & -> & Hout & _)
  end.
  cbn beta zeta. cbn [snd].
  destruct (jdict_get "data" d) as [v|] eqn:Hd.
  - rewrite (py_in_dict_some "data" d v Hd).
    destruct v as [| | | | | |dd]; handler; rewrite ?Hd; handler; try finish Hout.
    destruct (jdict_get "id" dd); finish Hout.
  - rewrite (py_in_dict_none "data" d Hd). handler. finish Hout.
Qed.

Lemma X7_tweet_object_response_witness :
  outcome (tweet (pinned {| resp_status := 201;
                            resp_body := Json (JDict [("data", JDict [("id", JStr "123")])]) |})
                 "hello" None)
          world0 (inl tt)
          [[Lit "✅ https://x.com/AxiomBot/status/"; Fmt (JStr "123")]].
Proof.
  apply (X7_tweet_object_response
           (pinned {| resp_status := 201;
                      resp_body := Json (JDict [("data", JDict [("id", JStr "123")])]) |})
           "hello" None world0 [("data", JDict [("id", JStr "123")])]).
  reflexivity.
Defined.

(** X8. [tweet] on a response that is valid JSON but not an object is
    never reported as a success: when ["data" in data] is false (a list
    or a string without it) the failure line is printed; in every other
    case (a number, a boolean, null, or a list or string that contains
    "data") the run stops on an uncaught [TypeError] with nothing
    printed. *)
Theorem X8_tweet_non_object_response
    (e : Env) (text : string) (reply_to : option string) (w : World) (data : json) :
  resp_body (response e) = Json data ->
  (forall d, data <> JDict d) ->
  match py_in "data" data with
  | inl false => outcome (tweet e text reply_to) w (inl tt) [[Lit "❌ "; Fmt data]]
  | _ => outcome (tweet e text reply_to) w (inr TypeError) []
  end.
Proof.
  intros Hj Hnd. unfold outcome, tweet.
  match goal with
  | |- context [bind (api_call_json e ?m ?p ?b) ?k w] =>
      destruct (api_bind_json e m p b k w data eq_refl Hj) as (w1 & -> & Hout & _)
  end.
  cbn beta zeta. cbn [snd].
  destruct data as [|b|z|lx iz|s|l|d]; cbn [py_in]; try (handler; finish Hout).
  - destruct (contains "data" s); handler; finish Hout.
  - destruct (existsb _ l); handler; finish Hout.
  - now destruct (Hnd d).
Qed.

Lemma X8_tweet_non_object_response_witness :
  outcome (tweet (pinned {| resp_status := 200; resp_body := Json (JList []) |})
                 "hello" None)
          world0 (inl tt) [[Lit "❌ "; Fmt (JList [])]].
Proof.
  apply (X8_tweet_non_object_response
           (pinned {| resp_status := 200; resp_body := Json (JList []) |})
           "hello" None world0 (JList [])).
  - reflexivity.
  - discriminate.
Defined.

Lemma report_object e method path body ok flag w d dd :
  wire_error method path = None ->
  resp_body (response e) = Json (JDict d) ->
  jdict_get "data" d = Some (JDict dd) \/ (jdict_get "data" d = None /\ dd = []) ->
  outcome (bind (api_call_json e method path body)
                (fun sd => report_flag ok flag (snd sd)))
          w (inl tt)
          [if truthy (default JNull (jdict_get flag dd))
           then [Lit ok] else [Lit "❌ "; Fmt (JDict d)]].
Proof.
  intros Hwire Hj Hd. unfold outcome.
  destruct (api_bind_json e method path body
              (fun sd => report_flag ok flag (snd sd)) w (JDict d) Hwire Hj)
    as (w1 & -> & Hout & _).
  unfold report_flag. cbn [snd]. handler.
  destruct Hd as [Hd|[Hd ->]]; rewrite Hd; handler;
    destruct (jdict_get flag _); finish Hout.
Qed.

(** X9. [like], [retweet] and [delete] on a response that is a JSON
    object whose [data] member is an object or is missing: the success
    line is printed exactly when the command's flag ([liked],
    [retweeted], [deleted]) is there and truthy; otherwise (flag false,
    null or missing, or no [data] at all) the failure line with the whole
    payload is printed.  The HTTP status plays no part.  For [delete]
    this is so when the id can stand in the request line; with any other
    id [conn.request] raises, and the run stops there with nothing
    printed. *)
Theorem X9_flag_commands_report
    (e : Env) (tweet_id : string) (w : World) (d dd : list (string * json)) :
  resp_body (response e) = Json (JDict d) ->
  jdict_get "data" d = Some (JDict dd) \/ (jdict_get "data" d = None /\ dd = []) ->
  let report ok flag :=
    [if truthy (default JNull (jdict_get flag dd))
     then [Lit ok] else [Lit "❌ "; Fmt (JDict d)]] in
  outcome (like e tweet_id) w (inl tt) (report "✅ Liked" "liked")
  /\ outcome (retweet e tweet_id) w (inl tt) (report "✅ Retweeted" "retweeted")
  /\ match wire_error "DELETE" ("/2/tweets/" ++ tweet_id) with
     | None => outcome (delete e tweet_id) w (inl tt) (report "✅ Deleted" "deleted")
     | Some x => outcome (delete e tweet_id) w (inr x) []
     end.
Proof.
  intros Hj Hd report. unfold report, like, retweet, delete.
  split; [|split]; [now apply report_object..|].
  destruct (wire_error "DELETE" ("/2/tweets/" ++ tweet_id)) as [x|] eqn:Hwire.
  - now apply api_bind_refused.
  - now apply report_object.
Qed.

Lemma X9_flag_commands_report_witness :
  outcome (delete (pinned {| resp_status := 200;
                             resp_body := Json (JDict [("data",
                                            JDict [("deleted", JBool false)])]) |})
                  "123")
          world0 (inl tt)
          [[Lit "❌ "; Fmt (JDict [("data", JDict [("deleted", JBool false)])])]].
Proof.
  refine (proj2 (proj2 (X9_flag_commands_report
            (pinned {| resp_status := 200;
                       resp_body := Json (JDict [("data",
                                      JDict [("deleted", JBool false)])]) |})
            "123" world0 [("data", JDict [("deleted", JBool false)])]
            [("deleted", JBool false)] _ _))).
  - reflexivity.
  - left. reflexivity.
Defined.

Lemma report_not_object e method path body ok flag w data :
  wire_error method path = None ->
  resp_body (response e) = Json data ->
  match data with
  | JDict d => match jdict_get "data" d with
               | Some (JDict _) | None => False
               | Some _ => True
               end
  | _ => True
  end ->
  outcome (bind (api_call_json e method path body)
                (fun sd => report_flag ok flag (snd sd)))
          w (inr AttributeError) [].
Proof.
  intros Hwire Hj Hd. unfold outcome.
  destruct (api_bind_json e method path body
              (fun sd => report_flag ok flag (snd sd)) w data Hwire Hj)
    as (w1 & -> & Hout & _).
  unfold report_flag. cbn [snd].
  destruct data as [| | | | | |d]; handler; try finish Hout.
  destruct (jdict_get "data" d) as [v|]; [|contradiction].
  destruct v; try contradiction; handler; finish Hout.
Qed.

(** X10. [like], [retweet] and [delete] assume objects: when the
    response is valid JSON but not an object, or its [data] member is
    there and is not an object (null, say), the run stops on an uncaught
    [AttributeError] and prints nothing.  For [delete] this is so when
    the id can stand in the request line; with any other id
    [conn.request] raises first, and the run stops on that exception. *)
Theorem X10_flag_commands_attribute_error
    (e : Env) (tweet_id : string) (w : World) (data : json) :
  resp_body (response e) = Json data ->
  match data with
  | JDict d => match jdict_get "data" d with
               | Some (JDict _) | None => False
               | Some _ => True
               end
  | _ => True
  end ->
  outcome (like e tweet_id) w (inr AttributeError) []
  /\ outcome (retweet e tweet_id) w (inr AttributeError) []
  /\ match wire_error "DELETE" ("/2/tweets/" ++ tweet_id) with
     | None => outcome (delete e tweet_id) w (inr AttributeError) []
     | Some x => outcome (delete e tweet_id) w (inr x) []
     end.
Proof.
  intros Hj Hd. unfold like, retweet, delete.
  split; [|split]; [now apply report_not_object with data..|].
  destruct (wire_error "DELETE" ("/2/tweets/" ++ tweet_id)) as [x|] eqn:Hwire.
  - now apply api_bind_refused.
  - now apply report_not_object with data.
Qed.

Lemma X10_flag_commands_attribute_error_witness :
  outcome (like (pinned {| resp_status := 200;
                           resp_body := Json (JDict [("data", JNull)]) |}) "123")
          world0 (inr AttributeError) [].
Proof.
  refine (proj1 (X10_flag_commands_attribute_error
            (pinned {| resp_status := 200;
                       resp_body := Json (JDict [("data", JNull)]) |})
            "123" world0 (JDict [("data", JNull)]) _ _)).
  - reflexivity.
  - exact I.
Defined.

(** X11. [dm] on a response that is a JSON object with a [data] member
    reports the message as sent whatever the HTTP status is, 403
    included: it prints the sent line, and then the conversation line
    with [dm_conversation_id], or with unknown when [data] has none.  When
    [data] is not an object the sent line is printed and the run then
    stops on an uncaught [AttributeError]. *)
Theorem X11_dm_data_member_means_sent
    (e : Env) (recipient_id text : string) (w : World)
    (d : list (string * json)) (v : json) :
  resp_body (response e) = Json (JDict d) ->
  jdict_get "data" d = Some v ->
  match v with
  | JDict dd =>
      outcome (dm e recipient_id text) w (inl tt)
              [ [Lit "✅ DM sent to "; Lit recipient_id];
                [Lit "   Conversation: ";
                 Fmt (default (JStr "unknown") (jdict_get "dm_conversation_id" dd))] ]
  | _ =>
      outcome (dm e recipient_id text) w (inr AttributeError)
              [ [Lit "✅ DM sent to "; Lit recipient_id] ]
  end.
Proof.
  intros Hj Hd. unfold outcome, dm.
  match goal with
  | |- context [bind (api_call_json e ?m ?p ?b) ?k w] =>
      destruct (api_bind_json e m p b k w (JDict d) eq_refl Hj) as (w1 & -> & Hout & _)
  end.
  cbn beta iota zeta. rewrite (py_in_dict_some "data" d v Hd).
  assert (Hok : (if resp_status (response e) =? 201
                 then ret true else lift (@inl bool exn true)) = ret true)
    by (destruct (resp_status (response e) =? 201); reflexivity).
  rewrite Hok. handler. rewrite Hd. handler.
  destruct v as [| | | | | |dd]; handler;
    try (split; [reflexivity|]; cbn [fst snd w_stdout]; rewrite Hout; reflexivity).
  destruct (jdict_get "dm_conversation_id" dd);
    (split; [reflexivity|]; cbn [fst snd w_stdout default]; rewrite Hout;
     rewrite <- app_assoc; reflexivity).
Qed.

Lemma X11_dm_data_member_means_sent_witness :
  outcome (dm (pinned {| resp_status := 403;
                         resp_body := Json (JDict [("data",
                                        JDict [("dm_conversation_id", JStr "7")])]) |})
              "42" "hi")
          world0 (inl tt)
          [ [Lit "✅ DM sent to "; Lit "42"]; [Lit "   Conversation: "; Fmt (JStr "7")] ].
Proof.
  apply (X11_dm_data_member_means_sent
           (pinned {| resp_status := 403;
                      resp_body := Json (JDict [("data",
                                     JDict [("dm_conversation_id", JStr "7")])]) |})
           "42" "hi" world0 [("data", JDict [("dm_conversation_id", JStr "7")])]
           (JDict [("dm_conversation_id", JStr "7")])).
  - reflexivity.
  - reflexivity.
Defined.

(** X12. [dm] tests ["data" in data] a second time after the sent line:
    with status 201 and a body that is a number, a boolean or null, the
    first test is skipped, the sent line is printed, and the second test
    stops the run on an uncaught [TypeError].  With status 201 and a
    body for which the test is false, the sent line is all that is
    printed. *)
Theorem X12_dm_created_status
    (e : Env) (recipient_id text : string) (w : World) (data : json) :
  resp_status (response e) = 201 ->
  resp_body (response e) = Json data ->
  match py_in "data" data with
  | inr x =>
      outcome (dm e recipient_id text) w (inr x)
              [ [Lit "✅ DM sent to "; Lit recipient_id] ]
  | inl false =>
      outcome (dm e recipient_id text) w (inl tt)
              [ [Lit "✅ DM sent to "; Lit recipient_id] ]
  | inl true => True
  end.
Proof.
  intros Hs Hj. unfold outcome, dm.
  match goal with
  | |- context [bind (api_call_json e ?m ?p ?b) ?k w] =>
      destruct (api_bind_json e m p b k w data eq_refl Hj) as (w1 & -> & Hout & _)
  end.
  cbn beta iota zeta. rewrite Hs. cbn [Z.eqb Pos.eqb].
  destruct (py_in "data" data) as [[|]|x]; [exact I| |]; handler;
    (split; [reflexivity|]; cbn [fst snd w_stdout]; rewrite Hout; reflexivity).
Qed.

Lemma X12_dm_created_status_witness :
  outcome (dm (pinned {| resp_status := 201; resp_body := Json JNull |}) "42" "hi")
          world0 (inr TypeError) [ [Lit "✅ DM sent to "; Lit "42"] ].
Proof.
  apply (X12_dm_created_status
           (pinned {| resp_status := 201; resp_body := Json JNull |})
           "42" "hi" world0 JNull).
  - reflexivity.
  - reflexivity.
Defined.



(** X18. [bio] on a response that is valid JSON: for an object it
    always prints the success line, with the [description] member when
    there is one and with the whole payload when there is none, whatever
    the HTTP status; for anything that is not an object the run stops on
    an uncaught [AttributeError] with nothing printed. *)
Theorem X18_bio_reports
    (e : Env) (text : string) (w : World) (data : json) :
  resp_body (response e) = Json data ->
  match data with
  | JDict d =>
      outcome (bio e text) w (inl tt)
              [[Lit "✅ Bio: "; Fmt (default (JDict d) (jdict_get "description" d))]]
  | _ => outcome (bio e text) w (inr AttributeError) []
  end.
Proof.
  intros Hj. unfold outcome. destruct (bio_run e text w) as (h' & r & ->).
  rewrite Hj. cbn [json_loads].
  erewrite bind_eq by (unfold ret; reflexivity).
  destruct data as [| | | | | |d]; handler; cbn [w_stdout];
    try (split; [reflexivity|]; now rewrite app_nil_r).
  destruct (jdict_get "description" d); split; reflexivity.
Qed.

Lemma X18_bio_reports_witness :
  outcome (bio (pinned {| resp_status := 200;
                          resp_body := Json (JDict [("description", JStr "hi")]) |})
               "hi")
          world0 (inl tt) [[Lit "✅ Bio: "; Fmt (JStr "hi")]].
Proof.
  apply (X18_bio_reports
           (pinned {| resp_status := 200;
                      resp_body := Json (JDict [("description", JStr "hi")]) |})
           "hi" world0 (JDict [("description", JStr "hi")])).
  reflexivity.
Defined.

End CommandsMore.

(** * Further properties of the dispatcher *)

Section DispatchMore.

Lemma arity_none cmd :
  arity cmd = None ->
  String.eqb cmd "tweet" = false /\ String.eqb cmd "reply" = false
  /\ String.eqb cmd "like" = false /\ String.eqb cmd "retweet" = false
  /\ String.eqb cmd "delete" = false /\ String.eqb cmd "bio" = false
  /\ String.eqb cmd "dm" = false /\ String.eqb cmd "dm-conv" = false.
Proof.
  unfold arity.
  repeat match goal with
         | |- context [String.eqb cmd ?s] => destruct (String.eqb cmd s)
         end; intros H; try discriminate; repeat split.
Qed.

Lemma unknown_command_run e argv w cmd :
  nth_error argv 1 = Some cmd ->
  arity cmd = None ->
  main e argv w
  = (inl tt,
     {| w_heap := w_heap w;
        w_stdout := w_stdout w ++ [[Lit "Unknown command: "; Lit cmd]; [Lit usage]];
        w_sent := w_sent w |}).
Proof.
  intros Hcmd Har.
  destruct argv as [|a0 [|c args]]; try discriminate.
  cbn [nth_error] in Hcmd. injection Hcmd as ->.
  rewrite main_cons. unfold dispatch.
  destruct (arity_none cmd Har) as (-> & -> & -> & -> & -> & -> & -> & ->).
  unfold bind, print. cbn [w_heap w_stdout w_sent].
  rewrite <- app_assoc. reflexivity.
Qed.

(** X14. An unknown command is not an error for the process: the
    dispatcher prints the unknown-command line and the usage text, sends
    nothing, and returns normally (exit status 0, where a missing
    command exits with 1). *)
Theorem X14_unknown_command
    (e : Env) (argv : list string) (w : World) (cmd : string) :
  nth_error argv 1 = Some cmd ->
  arity cmd = None ->
  main e argv w
  = (inl tt,
     {| w_heap := w_heap w;
        w_stdout := w_stdout w ++ [[Lit "Unknown command: "; Lit cmd]; [Lit usage]];
        w_sent := w_sent w |}).
Proof.
  intros Hcmd Har. now apply unknown_command_run.
Qed.

Lemma X14_unknown_command_witness :
  fst (main (pinned {| resp_status := 200; resp_body := Json JNull |})
            ["twitter-api.py"; "follow"; "42"] world0)
  = inl tt.
Proof.
  rewrite (X14_unknown_command
             (pinned {| resp_status := 200; resp_body := Json JNull |})
             ["twitter-api.py"; "follow"; "42"] world0 "follow");
    reflexivity.
Defined.

Lemma argv_at_app (argv more : list string) (i : nat) :
  (i < length argv)%nat -> argv_at (argv ++ more) i = argv_at argv i.
Proof.
  intros Hi. unfold argv_at. rewrite nth_error_app1 by exact Hi. reflexivity.
Qed.

(** X15. Arguments beyond those a command reads are ignored: a complete
    command line followed by anything more runs exactly as without it. *)
Theorem X15_surplus_arguments_ignored
    (e : Env) (argv more : list string) (w : World) :
  complete_call argv ->
  main e (argv ++ more) w = main e argv w.
Proof.
  intros (cmd & n & Hcmd & Har & Hlen).
  destruct argv as [|a0 [|c args]]; try discriminate.
  cbn [nth_error] in Hcmd. injection Hcmd as ->.
  change ((a0 :: cmd :: args) ++ more)%list with (a0 :: cmd :: (args ++ more))%list.
  rewrite !main_cons.
  change (a0 :: cmd :: (args ++ more))%list with ((a0 :: cmd :: args) ++ more)%list.
  unfold dispatch, arity in *.
  repeat match goal with
         | H : (if ?b then _ else _) = Some n |- _ => destruct b
         end; try discriminate; injection Har as <-.
  all: rewrite !argv_at_app by lia; try reflexivity.
  all: unfold bind; destruct (argv_at (a0 :: cmd :: args) _ w) as [[a|x] w'];
    try reflexivity; rewrite !argv_at_app by lia; reflexivity.
Qed.

Lemma X15_surplus_arguments_ignored_witness :
  main (pinned {| resp_status := 200; resp_body := Json JNull |})
       (["twitter-api.py"; "like"; "42"] ++ ["--verbose"; "x"]) world0
  = main (pinned {| resp_status := 200; resp_body := Json JNull |})
         ["twitter-api.py"; "like"; "42"] world0.
Proof.
  apply (X15_surplus_arguments_ignored
           (pinned {| resp_status := 200; resp_body := Json JNull |})
           ["twitter-api.py"; "like"; "42"] ["--verbose"; "x"] world0).
  exists "like", 1%nat. repeat split. simpl. lia.
Defined.

(** X17. A reply to the empty tweet id is a plain tweet: [if reply_to:]
    is false for the empty string, so [reply "" text] sends the body
    [tweet text] sends, without a [reply] member, and runs the same. *)
Theorem X17_reply_to_empty_id_is_tweet
    (e : Env) (prog text : string) (more : list string) (w : World) :
  main e (prog :: "reply" :: "" :: text :: more) w
  = main e (prog :: "tweet" :: text :: more) w.
Proof.
  rewrite !main_cons. unfold dispatch.
  cbn [String.eqb Ascii.eqb Bool.eqb].
  rewrite !argv_bind. cbn [nth_error].
  rewrite !argv_bind. cbn [nth_error].
  reflexivity.
Qed.

Ltac quiet :=
  repeat first
    [ apply keeps_sent_ret | apply keeps_sent_raise | apply keeps_sent_lift
    | apply keeps_sent_print
    | apply keeps_sent_bind; [|intros]
    | match goal with
      | |- keeps_sent (if ?b then _ else _) => destruct b
      | |- keeps_sent (match ?x with _ => _ end) => destruct x
      end ].

Lemma sends_shape e m w method path body ct extra :
  sends e m w method "api.twitter.com" path body ct extra ->
  exists r, w_sent (snd (m w)) = (w_sent w ++ [r])%list /\ api_request_shape r.
Proof.
  intros H. eexists. split; [exact H|].
  unfold api_request_shape. cbn [req_host req_headers].
  split; [reflexivity|]. split; [reflexivity|].
  eexists. split; [reflexivity|].
  unfold authorization. rewrite signed_fields_eq, header_around_nonce. reflexivity.
Qed.

Lemma missing_argument_run e argv w cmd n :
  nth_error argv 1 = Some cmd ->
  arity cmd = Some n ->
  (length argv < 2 + n)%nat ->
  main e argv w = (inr IndexError, w).
Proof.
  intros Hcmd Har Hlen.
  destruct argv as [|a0 [|c args]]; try discriminate.
  cbn [nth_error] in Hcmd. injection Hcmd as ->.
  rewrite main_cons. unfold dispatch, arity in *. cbn [length] in Hlen.
  repeat match goal with
         | H : (if ?b then _ else _) = Some n |- _ => destruct b
         end; try discriminate; injection Har as <-.
  all: destruct args as [|a2 [|a3 rest]]; cbn [length] in Hlen; try lia.
  all: rewrite argv_bind; cbn [nth_error]; try reflexivity.
  all: rewrite argv_bind; cbn [nth_error]; reflexivity.
Qed.

Lemma unless_refused_shape e m w method path body ct extra :
  sends_unless_refused e m w method "api.twitter.com" path body ct extra ->
  match wire_error method path with
  | None =>
      exists r, w_sent (snd (m w)) = (w_sent w ++ [r])%list /\ api_request_shape r
  | Some _ => w_sent (snd (m w)) = w_sent w
  end.
Proof.
  unfold sends_unless_refused. intros H.
  destruct (wire_error method path) as [x|].
  - now rewrite app_nil_r in H.
  - now apply sends_shape with e method path body ct extra.
Qed.

Lemma complete_call_wire e a0 cmd args w n :
  arity cmd = Some n ->
  (n <= length args)%nat ->
  match refused cmd (a0 :: cmd :: args) with
  | None =>
      exists r,
        w_sent (snd (dispatch e (a0 :: cmd :: args) cmd w)) = (w_sent w ++ [r])%list
        /\ api_request_shape r
  | Some _ => w_sent (snd (dispatch e (a0 :: cmd :: args) cmd w)) = w_sent w
  end.
Proof.
  intros Har Hlen. unfold dispatch, refused, request_line, arity in *.
  repeat match goal with
         | H : (if ?b then _ else _) = Some n |- _ => destruct b
         end; try discriminate; injection Har as <-.
  all: destruct args as [|a2 args]; cbn [length] in Hlen; try lia.
  all: try (destruct args as [|a3 args]; cbn [length] in Hlen; [lia|]).
  all: rewrite argv_bind; cbn [nth_error]; try (rewrite argv_bind; cbn [nth_error]).
  all: cbn beta iota; cbn [nth].
  all: first [ eapply sends_shape; apply bio_wire
             | unfold tweet, like, retweet, delete, dm, dm_to_conversation;
               eapply unless_refused_shape;
               eapply api_command_unless_refused; intros a;
               try apply keeps_sent_report; quiet ].
Qed.

(** X16. One run, at most one request.  A complete command line (a
    recognised command with the arguments it reads) sends exactly one
    request, whatever the server answers and however the run ends, and
    that request goes to api.twitter.com with an OAuth [Authorization]
    header and a [Content-Type]; unless [conn.request] refuses the
    request line, as it does for a [delete] or [dm-conv] id with a
    space, a control character or a character that is not ASCII: then
    nothing is sent.  Every other command line (no command, an unknown
    command, a missing argument) sends nothing. *)
Theorem X16_one_request_per_run (e : Env) (argv : list string) (w : World) :
  (complete_call argv ->
   match refused (nth 1 argv "") argv with
   | None =>
       exists r, w_sent (snd (main e argv w)) = (w_sent w ++ [r])%list
                 /\ api_request_shape r
   | Some _ => w_sent (snd (main e argv w)) = w_sent w
   end)
  /\ (~ complete_call argv -> w_sent (snd (main e argv w)) = w_sent w).
Proof.
  split.
  - intros (cmd & n & Hcmd & Har & Hlen).
    destruct argv as [|a0 [|c args]]; try discriminate.
    cbn [nth_error] in Hcmd. injection Hcmd as ->. cbn [nth].
    rewrite main_cons. apply complete_call_wire with n; [exact Har|].
    cbn [length] in Hlen. lia.
  - intros Hnc.
    destruct argv as [|a0 [|cmd args]]; try reflexivity.
    destruct (arity cmd) as [n|] eqn:Har.
    + destruct (Nat.le_gt_cases (2 + n) (length (a0 :: cmd :: args))) as [Hl|Hl].
      * exfalso. apply Hnc. now exists cmd, n.
      * now rewrite (missing_argument_run e (a0 :: cmd :: args) w cmd n eq_refl Har Hl).
    + now rewrite (unknown_command_run e (a0 :: cmd :: args) w cmd eq_refl Har).
Qed.

Lemma X16_one_request_per_run_witness :
  exists r,
    w_sent (snd (main (pinned {| resp_status := 500; resp_body := NotJson "oops" |})
                      ["twitter-api.py"; "bio"; "hello"] world0))
    = [r]
    /\ api_request_shape r.
Proof.
  refine (proj1 (X16_one_request_per_run
            (pinned {| resp_status := 500; resp_body := NotJson "oops" |})
            ["twitter-api.py"; "bio"; "hello"] world0) _).
  exists "bio", 1%nat. repeat split. simpl. lia.
Defined.

End DispatchMore.
